(** * Data_Quality_check: the metric services over a pandas-like table

    A shallow embedding of the metric operations of
    [services/core_quality_service.py], [statistical_quality_service.py],
    [semantic_quality_service.py], [temporal_quality_service.py] and
    [precision_quality_service.py], and the properties the specification
    states about them.

    Conventions of the embedding.
    - A float is an extended rational [xnum]: a finite value, the two
      infinities or NaN.  Finite arithmetic is exact; the IEEE special
      cases (division by zero, inf - inf, comparisons with NaN) are written
      out as numpy evaluates them.  Signed zeros are not distinguished.
    - A DataFrame is a row count and an ordered list of named, typed
      columns (float64/int64, object holding text, datetime64[ns]).
    - A Python exception is a value of [exn]; code that may raise returns
      [res A].  Division of two Python numbers raises on a zero divisor,
      division of numpy scalars yields NaN or an infinity. *)

From Stdlib Require Import ZArith QArith Qround Qabs List String Ascii Bool Lia Lqa
  Sorted.
Import ListNotations.
Local Open Scope Z_scope.

(* ------------------------------------------------------------------ *)
(** ** Extended rationals: the model of float64 *)

Module Num.

Inductive xnum : Type :=
| Fin (q : Q)
| PInf
| NInf
| NaN.

Definition qsgn (q : Q) : Z := Z.sgn (Qnum q).

Definition xopp (a : xnum) : xnum :=
  match a with
  | Fin q => Fin (Qred (- q)%Q)
  | PInf => NInf
  | NInf => PInf
  | NaN => NaN
  end.

Definition xadd (a b : xnum) : xnum :=
  match a, b with
  | NaN, _ | _, NaN => NaN
  | Fin x, Fin y => Fin (Qred (x + y)%Q)
  | PInf, NInf | NInf, PInf => NaN
  | PInf, _ | _, PInf => PInf
  | NInf, _ | _, NInf => NInf
  end.

Definition xsub (a b : xnum) : xnum := xadd a (xopp b).

(** The infinity of a given sign; sign 0 stands for the invalid product
    0 * inf. *)
Definition inf_of_sign (s : Z) : xnum :=
  match s with
  | Z0 => NaN
  | Zpos _ => PInf
  | Zneg _ => NInf
  end.

Definition xsgn (a : xnum) : Z :=
  match a with
  | Fin q => qsgn q
  | PInf => 1
  | NInf => -1
  | NaN => 0
  end.

Definition xmul (a b : xnum) : xnum :=
  match a, b with
  | NaN, _ | _, NaN => NaN
  | Fin x, Fin y => Fin (Qred (x * y)%Q)
  | _, _ => inf_of_sign (xsgn a * xsgn b)
  end.

(** numpy's true division: x/0 is an infinity of the sign of x, 0/0 and
    inf/inf are NaN, finite/inf is 0. *)
Definition xdiv (a b : xnum) : xnum :=
  match a, b with
  | NaN, _ | _, NaN => NaN
  | Fin x, Fin y =>
      if Qeq_bool y 0 then inf_of_sign (qsgn x) else Fin (Qred (x / y)%Q)
  | Fin _, _ => Fin 0
  | _, Fin y => if Qeq_bool y 0 then a else inf_of_sign (xsgn a * qsgn y)
  | _, _ => NaN
  end.

(** Comparisons: every comparison with NaN is false. *)
Definition xltb (a b : xnum) : bool :=
  match a, b with
  | NaN, _ | _, NaN => false
  | Fin x, Fin y => negb (Qle_bool y x)
  | NInf, NInf => false
  | NInf, _ => true
  | _, PInf => match a with PInf => false | _ => true end
  | _, _ => false
  end.

Definition xgtb (a b : xnum) : bool := xltb b a.

Definition xeqb (a b : xnum) : bool :=
  match a, b with
  | Fin x, Fin y => Qeq_bool x y
  | PInf, PInf | NInf, NInf => true
  | _, _ => false
  end.

Definition xleb (a b : xnum) : bool := xltb a b || xeqb a b.

Definition xabs (a : xnum) : xnum :=
  match a with
  | Fin q => Fin (Qred (Qabs q))
  | PInf | NInf => PInf
  | NaN => NaN
  end.

Definition isnan (a : xnum) : bool :=
  match a with NaN => true | _ => false end.

Definition isfinite (a : xnum) : bool :=
  match a with Fin _ => true | _ => false end.

(** Round half to even, the rounding of Python's [round] and of
    [numpy.round]. *)
Definition round_half_even (q : Q) : Z :=
  let f := Qfloor q in
  let r := (q - inject_Z f)%Q in
  match (r ?= 1 # 2)%Q with
  | Lt => f
  | Gt => f + 1
  | Eq => if Z.even f then f else f + 1
  end.

Definition qround2 (q : Q) : Q := Qred (round_half_even (q * 100)%Q # 100).

(** [round(x, 2)]: NaN and the infinities are returned unchanged. *)
Definition round2 (a : xnum) : xnum :=
  match a with
  | Fin q => Fin (qround2 q)
  | _ => a
  end.

(** Square root of a non-negative rational, to twelve decimals, rounded
    up (so that a positive argument has a positive root). *)
Definition qsqrt (q : Q) : Q :=
  match Qnum q with
  | Zpos n =>
      Qred (Z.sqrt_up (Zpos n * Zpos (Qden q) * 10 ^ 24)
              # (Qden q * 1000000000000))
  | _ => 0
  end.

Definition xsqrt (a : xnum) : xnum :=
  match a with
  | Fin q => if Qle_bool 0 q then Fin (qsqrt q) else NaN
  | PInf => PInf
  | _ => NaN
  end.

Definition of_Z (z : Z) : xnum := Fin (inject_Z z).
Definition of_nat (n : nat) : xnum := of_Z (Z.of_nat n).

Definition xsum (l : list xnum) : xnum := fold_left xadd l (Fin 0).


(** Mean of a boolean array, as [ndarray.mean]: NaN on an empty array. *)
Definition bool_mean (l : list bool) : xnum :=
  xdiv (of_nat (List.length (filter (fun b => b) l))) (of_nat (List.length l)).

End Num.
Export Num.

(* ------------------------------------------------------------------ *)
(** ** Python values: exceptions, dicts, sorting *)

Module Py.

Inductive exn : Type :=
| KeyError (key : string)
| TypeError
| ValueError
| ZeroDivisionError.

Inductive res (A : Type) : Type :=
| Ok (a : A)
| Raise (e : exn).
Arguments Ok {A} a.
Arguments Raise {A} e.

Definition bind {A B : Type} (m : res A) (k : A -> res B) : res B :=
  match m with
  | Ok a => k a
  | Raise e => Raise e
  end.

Notation "x <- m ;; k" := (bind m (fun x => k))
  (at level 61, m at next level, right associativity).

(** A dict keeps the position of a key that is assigned again. *)
Definition dict (V : Type) : Type := list (string * V).

Fixpoint dict_set {V : Type} (k : string) (v : V) (d : dict V) : dict V :=
  match d with
  | [] => [(k, v)]
  | (k', v') :: d' =>
      if String.eqb k k' then (k, v) :: d' else (k', v') :: dict_set k v d'
  end.

Fixpoint dict_get {V : Type} (k : string) (d : dict V) : option V :=
  match d with
  | [] => None
  | (k', v) :: d' => if String.eqb k k' then Some v else dict_get k d'
  end.

(** [for col in cols: result[col] = body(col)], where the body may also
    leave the dict alone ([None]) or raise. *)
Fixpoint for_each {V : Type} (body : string -> res (option V))
    (cols : list string) (result : dict V) : res (dict V) :=
  match cols with
  | [] => Ok result
  | col :: rest =>
      o <- body col ;;
      for_each body rest
        (match o with Some v => dict_set col v result | None => result end)
  end.

(** A loop body that assigns on every pass. *)
Definition assign {V : Type} (f : string -> res V) (col : string)
    : res (option V) :=
  e <- f col ;; Ok (Some e).

(** Python's division of two ints. *)
Definition py_div (a b : Z) : res xnum :=
  if b =? 0 then Raise ZeroDivisionError else Ok (xdiv (of_Z a) (of_Z b)).

Section Sorting.
Context {A : Type} (leb : A -> A -> bool).

Fixpoint insert_sorted (x : A) (l : list A) : list A :=
  match l with
  | [] => [x]
  | y :: l' => if leb x y then x :: l else y :: insert_sorted x l'
  end.

Definition sorted (l : list A) : list A := fold_right insert_sorted [] l.
End Sorting.

(** Successive differences of a list, [Series.diff] without its leading
    missing entry. *)
Fixpoint diffs (l : list Z) : list Z :=
  match l with
  | a :: (b :: _) as l' => (b - a) :: diffs l'
  | _ => []
  end.

(** [Series.median] of a list without missing values. *)
Definition median (l : list Q) : xnum :=
  let s := sorted Qle_bool l in
  let n := List.length s in
  match n with
  | O => NaN
  | _ =>
      if Nat.even n
      then Fin (Qred ((nth (n / 2 - 1) s 0%Q + nth (n / 2) s 0%Q) / 2))
      else Fin (Qred (nth (n / 2) s 0%Q))
  end.

Definition NS_PER_SECOND : Z := 1000000000.

(** [Timedelta.total_seconds] of a difference given in nanoseconds. *)
Definition total_seconds (d : Z) : Q := Qred (d # 1000000000).

End Py.
Export Py.

(* ------------------------------------------------------------------ *)
(** ** The table *)

Module Frame.

(** A column by dtype.  A numeric column holds NaN for a missing value, an
    object column of text holds None, a datetime64[ns] column holds NaT
    ([None]); timestamps are nanoseconds since the epoch. *)
Inductive column : Type :=
| NumCol (xs : list xnum)
| TextCol (xs : list (option string))
| TimeCol (xs : list (option Z)).

Record DataFrame : Type := mkDataFrame {
  nrows : nat;
  columns : list (string * column)
}.

Definition col_len (c : column) : nat :=
  match c with
  | NumCol xs => List.length xs
  | TextCol xs => List.length xs
  | TimeCol xs => List.length xs
  end.

(** Every column has one value per row and column names are unique. *)
Definition well_formed (df : DataFrame) : Prop :=
  Forall (fun c => col_len (snd c) = nrows df) (columns df) /\
  NoDup (map fst (columns df)).

Definition column_names (df : DataFrame) : list string :=
  map fst (columns df).

(** [col in df.columns] *)
Definition has_column (df : DataFrame) (col : string) : bool :=
  existsb (String.eqb col) (column_names df).

(** [df[col]] *)
Definition getitem (df : DataFrame) (col : string) : res column :=
  match dict_get col (columns df) with
  | Some c => Ok c
  | None => Raise (KeyError col)
  end.


(** [len(df)] and [df.size] *)
Definition len (df : DataFrame) : nat := nrows df.
Definition size (df : DataFrame) : nat := (nrows df * List.length (columns df))%nat.

Definition is_none {A : Type} (o : option A) : bool :=
  match o with None => true | Some _ => false end.

(** [Series.isnull] *)
Definition isnull (c : column) : list bool :=
  match c with
  | NumCol xs => map isnan xs
  | TextCol xs => map is_none xs
  | TimeCol xs => map is_none xs
  end.

Definition count_true (l : list bool) : nat :=
  List.length (filter (fun b => b) l).

(** The values of a numeric column.  The numeric reductions and the
    comparisons with a number are taken on float64/int64 columns; on a
    column of text pandas raises TypeError, and the embedding raises it
    on every dtype that is not numeric. *)
Definition numeric (c : column) : res (list xnum) :=
  match c with
  | NumCol xs => Ok xs
  | _ => Raise TypeError
  end.

Definition dropna_num (xs : list xnum) : list xnum :=
  filter (fun x => negb (isnan x)) xs.

(** [Series.mean], skipping missing values. *)
Definition mean (xs : list xnum) : xnum :=
  let vs := dropna_num xs in
  xdiv (xsum vs) (of_nat (List.length vs)).

(** [Series.var(ddof)], skipping missing values. *)
Definition var (ddof : nat) (xs : list xnum) : xnum :=
  let vs := dropna_num xs in
  let n := List.length vs in
  if (n <=? ddof)%nat then NaN
  else
    let m := mean vs in
    xdiv (xsum (map (fun x => xmul (xsub x m) (xsub x m)) vs))
         (of_nat (n - ddof)).

(** [Series.std(ddof)] *)
Definition std (ddof : nat) (xs : list xnum) : xnum := xsqrt (var ddof xs).

(** One cell of a row. *)
Inductive cell : Type :=
| NumCell (x : xnum)
| TextCell (s : option string)
| TimeCell (t : option Z).

Definition cells (c : column) : list cell :=
  match c with
  | NumCol xs => map NumCell xs
  | TextCol xs => map TextCell xs
  | TimeCol xs => map TimeCell xs
  end.

Definition cell_isnull (c : cell) : bool :=
  match c with
  | NumCell x => isnan x
  | TextCell s => is_none s
  | TimeCell t => is_none t
  end.

(** Equality of cells as [duplicated] sees it: missing equals missing. *)
Definition cell_eqb (a b : cell) : bool :=
  match a, b with
  | NumCell x, NumCell y => (isnan x && isnan y) || xeqb x y
  | TextCell (Some s), TextCell (Some t) => String.eqb s t
  | TextCell None, TextCell None => true
  | TimeCell (Some s), TimeCell (Some t) => Z.eqb s t
  | TimeCell None, TimeCell None => true
  | _, _ => false
  end.

Fixpoint row_eqb (r1 r2 : list cell) : bool :=
  match r1, r2 with
  | [], [] => true
  | a :: r1', b :: r2' => cell_eqb a b && row_eqb r1' r2'
  | _, _ => false
  end.

(** Row [i] of a list of columns. *)
Definition row_of (cols : list column) (i : nat) : list cell :=
  map (fun c => nth i (cells c) (NumCell NaN)) cols.

Definition rows_of (n : nat) (cols : list column) : list (list cell) :=
  map (row_of cols) (seq 0 n).

Definition rows (df : DataFrame) : list (list cell) :=
  rows_of (nrows df) (map snd (columns df)).

(** [df.duplicated()]: a row is marked when an earlier row equals it.  An
    empty frame (no rows or no columns) gives an empty Series. *)
Fixpoint duplicated_from (seen : list (list cell)) (rs : list (list cell))
    : list bool :=
  match rs with
  | [] => []
  | r :: rs' => existsb (row_eqb r) seen :: duplicated_from (r :: seen) rs'
  end.

Definition duplicated (df : DataFrame) : list bool :=
  match columns df with
  | [] => []
  | _ => duplicated_from [] (rows df)
  end.

(** The external conversion of text and numbers to timestamps
    ([pandas.to_datetime]); [None] is a value that does not parse. *)
Record Parser : Type := mkParser {
  parse_text : string -> option Z;
  parse_num : xnum -> option Z
}.

Section ToDatetime.
Variable P : Parser.

(** [pd.to_datetime(c, errors='coerce')]: what does not parse is NaT. *)
Definition to_datetime_coerce (c : column) : list (option Z) :=
  match c with
  | TimeCol ts => ts
  | TextCol xs =>
      map (fun o => match o with
                    | Some s => parse_text P s
                    | None => None
                    end) xs
  | NumCol xs => map (fun x => if isnan x then None else parse_num P x) xs
  end.


End ToDatetime.

Definition is_datetime64 (c : column) : bool :=
  match c with TimeCol _ => true | _ => false end.

(** [dropna()] of a parsed column. *)
Fixpoint dropna_time (ts : list (option Z)) : list Z :=
  match ts with
  | [] => []
  | Some t :: ts' => t :: dropna_time ts'
  | None :: ts' => dropna_time ts'
  end.

(** [.sort_values().diff().dt.total_seconds().dropna()] of the parsed
    values: the successive gaps, in seconds, of the sorted timestamps. *)
Definition gaps_seconds (ts : list Z) : list Q :=
  map total_seconds (diffs (sorted Z.leb ts)).

End Frame.
Export Frame.

(** One metric record: a named numeric field and a status. *)
Record entry : Type := mkEntry {
  field : string;
  value : xnum;
  status : string
}.

Local Open Scope string_scope.

(* ------------------------------------------------------------------ *)
(** ** core_quality_service.py *)

Module CoreQualityService.

Record completeness_result : Type := mkCompleteness {
  score : xnum;
  missing_cells : Z;
  c_status : string
}.

(** [df.isnull().sum().sum()], a numpy integer: dividing it by zero is
    numpy's division and does not raise. *)
Definition count_missing (df : DataFrame) : nat :=
  list_sum (map (fun c => count_true (isnull (snd c))) (columns df)).

Definition completeness (df : DataFrame) : completeness_result :=
  let total_cells := Z.of_nat (size df) in
  let missing_cells := Z.of_nat (count_missing df) in
  let completeness_score :=
    round2 (xmul (xdiv (of_Z (total_cells - missing_cells)) (of_Z total_cells))
                 (Fin 100)) in
  let ratio := xdiv (of_Z missing_cells) (of_Z total_cells) in
  let status :=
    if xgtb ratio (Fin (1 # 5)) then "CRITICAL"
    else if xgtb ratio (Fin (1 # 10)) then "WARNING" else "GOOD" in
  mkCompleteness completeness_score missing_cells status.

Definition accuracy_column (df : DataFrame) (col : string) : res entry :=
  c <- getitem df col ;;
  xs <- numeric c ;;
  let m := mean xs in
  let s := std 0 xs in
  let z_scores := map (fun x => xdiv (xsub x m) s) xs in
  let outliers_ratio :=
    xmul (bool_mean (map (fun z => xgtb (xabs z) (Fin 3)) z_scores)) (Fin 100) in
  Ok (mkEntry "outlier_%" (round2 outliers_ratio)
        (if xgtb outliers_ratio (Fin 10) then "Issue" else "OK")).

Definition accuracy (df : DataFrame) (numeric_columns : list string)
    : res (dict entry) :=
  for_each (assign (accuracy_column df))
    numeric_columns [].

Section Timeliness.
Variable P : Parser.



End Timeliness.

Record uniqueness_result : Type := mkUniqueness {
  duplicate_count : Z;
  uniqueness_score : xnum;
  u_status : string
}.

Definition uniqueness (df : DataFrame) : uniqueness_result :=
  let total_rows := len df in
  let duplicate_rows := count_true (duplicated df) in
  let score :=
    xsub (Fin 100)
         (xmul (xdiv (of_nat duplicate_rows) (of_nat total_rows)) (Fin 100)) in
  mkUniqueness (Z.of_nat duplicate_rows) (round2 score)
    (if (0 <? duplicate_rows)%nat then "Issue" else "OK").

End CoreQualityService.

(* ------------------------------------------------------------------ *)
(** ** statistical_quality_service.py *)

Module StatisticalQualityService.

(** [Series.quantile(q)] with linear interpolation, skipping missing
    values; numpy interpolates from the upper neighbour when the weight is
    at least one half. *)
Definition quantile (xs : list xnum) (q : Q) : xnum :=
  let s := sorted xleb (dropna_num xs) in
  let n := List.length s in
  match n with
  | O => NaN
  | _ =>
      let pos := (inject_Z (Z.of_nat (n - 1)) * q)%Q in
      let lo := Z.to_nat (Qfloor pos) in
      let hi := Z.to_nat (Qceiling pos) in
      let t := Qred (pos - inject_Z (Qfloor pos))%Q in
      let a := nth lo s NaN in
      let b := nth hi s NaN in
      let d := xsub b a in
      if Qle_bool (1 # 2) t
      then xsub b (xmul d (Fin (Qred (1 - t)%Q)))
      else xadd a (xmul d (Fin t))
  end.

Definition outlier_score_column (df : DataFrame) (col : string) : res entry :=
  c <- getitem df col ;;
  xs <- numeric c ;;
  let Q1 := quantile xs (1 # 4) in
  let Q3 := quantile xs (3 # 4) in
  let IQR := xsub Q3 Q1 in
  let lower := xsub Q1 (xmul (Fin (3 # 2)) IQR) in
  let upper := xadd Q3 (xmul (Fin (3 # 2)) IQR) in
  let outliers := filter (fun x => xltb x lower || xgtb x upper) xs in
  r <- py_div (Z.of_nat (List.length outliers)) (Z.of_nat (len df)) ;;
  let percent := xmul r (Fin 100) in
  Ok (mkEntry "outlier_%" (round2 percent)
        (if xgtb percent (Fin 5) then "Issue" else "OK")).

Definition outlier_score (df : DataFrame) (numeric_cols : list string)
    : res (dict entry) :=
  for_each (assign (outlier_score_column df))
    numeric_cols [].

End StatisticalQualityService.

(* ------------------------------------------------------------------ *)
(** ** semantic_quality_service.py *)

Module SemanticQualityService.

(** A scalar of the configuration document. *)
Inductive pyval : Type :=
| VNum (q : Q)
| VStr (s : string).

Record Config : Type := mkConfig {
  identifier_columns : list string;
  domain_rules : dict (list pyval);
  cross_field_rules : list (list string);
  metadata_columns : list string;
  frequency_columns : list string;
  powerfactor_columns : list string
}.







Record domain_result : Type := mkDomain {
  invalid_columns : list string;
  domain_validity_score : xnum;
  d_status : string
}.

Section DomainRules.
Variable P : Parser.

(** [series < v] and [series > v] against a scalar: a missing value
    compares false; text compares with text, numbers with numbers, a
    datetime column with a text that parses as a timestamp. *)
Definition compare_scalar (lt : bool) (c : column) (v : pyval)
    : res (list bool) :=
  match c, v with
  | NumCol xs, VNum q =>
      Ok (map (fun x => if lt then xltb x (Fin q) else xgtb x (Fin q)) xs)
  | TextCol xs, VStr s =>
      Ok (map (fun o => match o with
                        | Some x => if lt then String.ltb x s else String.ltb s x
                        | None => false
                        end) xs)
  | TimeCol ts, VStr s =>
      match parse_text P s with
      | Some b =>
          Ok (map (fun o => match o with
                            | Some t => if lt then (t <? b)%Z else (b <? t)%Z
                            | None => false
                            end) ts)
      | None => Raise TypeError
      end
  | _, _ => Raise TypeError
  end.

(** [series.isin(rule)] *)
Definition isin (c : column) (rule : list pyval) : list bool :=
  match c with
  | NumCol xs =>
      map (fun x => existsb (fun v => match v with
                                      | VNum q => xeqb x (Fin q)
                                      | VStr _ => false
                                      end) rule) xs
  | TextCol xs =>
      map (fun o => match o with
                    | Some x => existsb (fun v => match v with
                                                  | VStr s => String.eqb x s
                                                  | VNum _ => false
                                                  end) rule
                    | None => false
                    end) xs
  | TimeCol ts =>
      map (fun o => match o with
                    | Some t => existsb (fun v => match v with
                                                  | VStr s =>
                                                      match parse_text P s with
                                                      | Some b => (t =? b)%Z
                                                      | None => false
                                                      end
                                                  | VNum _ => false
                                                  end) rule
                    | None => false
                    end) ts
  end.

(** Is the column invalid under its rule?  A rule that is a list of two
    entries is read as [min, max]. *)
Definition rule_violated (c : column) (rule : list pyval) : res bool :=
  match rule with
  | [min_val; max_val] =>
      below <- compare_scalar true c min_val ;;
      above <- compare_scalar false c max_val ;;
      Ok (existsb (fun b => b) (map (fun p => fst p || snd p) (combine below above)))
  | _ => Ok (existsb negb (isin c rule))
  end.

Fixpoint domain_loop (df : DataFrame) (rules : dict (list pyval))
    (invalid_columns : list string) : res (list string) :=
  match rules with
  | [] => Ok invalid_columns
  | (col, rule) :: rest =>
      if has_column df col then
        c <- getitem df col ;;
        bad <- rule_violated c rule ;;
        domain_loop df rest
          (if bad then invalid_columns ++ [col] else invalid_columns)
      else domain_loop df rest invalid_columns
  end.

Definition domain_value_validity (config : Config) (df : DataFrame)
    : res domain_result :=
  invalid_columns <- domain_loop df (domain_rules config) [] ;;
  r <- py_div (Z.of_nat (List.length invalid_columns))
              (Z.max (Z.of_nat (List.length (domain_rules config))) 1) ;;
  let score := xsub (Fin 1) r in
  let status := if xltb score (Fin (88 # 100)) then "Issue" else "OK" in
  Ok (mkDomain invalid_columns (round2 score) status).
End DomainRules.

End SemanticQualityService.

(* ------------------------------------------------------------------ *)
(** ** temporal_quality_service.py *)

Module TemporalQualityService.

Definition NS_PER_HOUR : Z := 3600 * NS_PER_SECOND.
Definition NS_PER_DAY : Z := 86400 * NS_PER_SECOND.

(** [Series.dt.hour] *)
Definition hour (t : Z) : Z := ((t / NS_PER_HOUR) mod 24)%Z.


(** [value_counts(normalize=True)]: the relative frequency of every
    distinct value. *)
Definition value_counts_normalized (l : list Z) : list xnum :=
  map (fun v => xdiv (of_nat (List.length (filter (Z.eqb v) l)))
                     (of_nat (List.length l)))
      (nodup Z.eq_dec l).

Section Temporal.
Variable P : Parser.





Definition temporal_pattern_column (df : DataFrame) (col : string)
    : res entry :=
  c <- getitem df col ;;
  let parsed := dropna_time (to_datetime_coerce P c) in
  match parsed with
  | [] => Ok (mkEntry "pattern_score_%" (Fin 0) "Issue")
  | _ =>
      let hour_counts := value_counts_normalized (map hour parsed) in
      let pattern_score :=
        round2 (xmul (xsub (Fin 1) (std 1 hour_counts)) (Fin 100)) in
      Ok (mkEntry "pattern_score_%" pattern_score
            (if xltb pattern_score (Fin 75) then "Issue" else "OK"))
  end.

Definition temporal_pattern (df : DataFrame) (datetime_columns : list string)
    : res (dict entry) :=
  for_each (assign (temporal_pattern_column df))
    datetime_columns [].
End Temporal.

End TemporalQualityService.

(* ------------------------------------------------------------------ *)
(** ** precision_quality_service.py *)

Module PrecisionQualityService.

(** [str(e)] of an exception; for a KeyError the repr of the key, for the
    others the name of the exception stands for its message. *)
Definition str_exn (e : exn) : string :=
  match e with
  | KeyError k => "'" ++ k ++ "'"
  | TypeError => "TypeError"
  | ValueError => "ValueError"
  | ZeroDivisionError => "division by zero"
  end.

(** [s.split(".")] *)
Fixpoint split_dot (s : string) : list string :=
  match s with
  | EmptyString => [EmptyString]
  | String c s' =>
      if Ascii.eqb c "."%char then EmptyString :: split_dot s'
      else match split_dot s' with
           | [] => [String c EmptyString]
           | h :: t => String c h :: t
           end
  end.

(** [len(x.split(".")[1]) if "." in x else 0] *)
Definition decimal_places (x : string) : nat :=
  match split_dot x with
  | _ :: frac :: _ => String.length frac
  | _ => 0%nat
  end.

(** Python's [str] of a number and of a timestamp, taken from outside. *)
Record Renderer : Type := mkRenderer {
  str_num : xnum -> string;
  str_time : Z -> string
}.

Inductive precision_entry : Type :=
| DecimalCounts (unique_decimal_counts : list nat) (status : string)
| ErrorEntry (error : string) (status : string).

Section DecimalPrecision.
Variable R : Renderer.

(** [str(x)] of a value that is not missing. *)
Definition py_str (c : cell) : option string :=
  match c with
  | NumCell x => if isnan x then None else Some (str_num R x)
  | TextCell s => s
  | TimeCell (Some t) => Some (str_time R t)
  | TimeCell None => None
  end.

Fixpoint dropna_str (l : list (option string)) : list string :=
  match l with
  | [] => []
  | Some s :: l' => s :: dropna_str l'
  | None :: l' => dropna_str l'
  end.

(** The body of the [try] for one column. *)
Definition decimal_precision_try (df : DataFrame) (col : string)
    : res precision_entry :=
  c <- getitem df col ;;
  let clean_col := filter (fun x => negb (cell_isnull x)) (cells c) in
  match clean_col with
  | [] => Ok (DecimalCounts [] "No data")
  | _ =>
      let decimals := map decimal_places (dropna_str (map py_str clean_col)) in
      let unique_decimal_counts := sorted Nat.leb (nodup Nat.eq_dec decimals) in
      Ok (DecimalCounts unique_decimal_counts
            (if (3 <? List.length unique_decimal_counts)%nat
             then "Issue" else "OK"))
  end.

(** [try: ... except Exception as e: ...] *)
Definition decimal_precision_column (df : DataFrame) (col : string)
    : precision_entry :=
  match decimal_precision_try df col with
  | Ok e => e
  | Raise e => ErrorEntry (str_exn e) "Error"
  end.

Fixpoint decimal_precision_loop (df : DataFrame) (numeric_columns : list string)
    (result : dict precision_entry) : dict precision_entry :=
  match numeric_columns with
  | [] => result
  | col :: rest =>
      decimal_precision_loop df rest
        (dict_set col (decimal_precision_column df col) result)
  end.

Definition decimal_precision (df : DataFrame) (numeric_columns : list string)
    : dict precision_entry :=
  decimal_precision_loop df numeric_columns [].
End DecimalPrecision.

(** What [calculation_accuracy] returns: a dict with only an "error" key,
    a dict with "accuracy_%" and "status", or the dict of the [except]
    branch. *)
Inductive calculation_result : Type :=
| ConfigError (error : string)
| Accuracy (accuracy : option xnum) (status : string)
| ComputeError (error : string) (status : string).

(** [np.isclose(x, y, atol)] with the default relative tolerance. *)
Definition RTOL : Q := 1 # 100000.
Definition isclose (x y : xnum) (atol : Q) : bool :=
  (xleb (xabs (xsub x y)) (xadd (Fin atol) (xmul (Fin RTOL) (xabs y)))
   && isfinite y)
  || xeqb x y.

(** [repr] of a list of strings. *)
Definition repr_list (l : list string) : string :=
  "[" ++ String.concat ", " (map (fun s => "'" ++ s ++ "'") l) ++ "]".

(** [_convert_to_python_types] on a Python float: NaN becomes None. *)
Definition convert_to_python_types (x : xnum) : option xnum :=
  if isnan x then None else Some x.

(** The rows of [df[base_cols].dropna()], given the three columns. *)
Definition clean_rows (n : nat) (cols : list column) : list (list cell) :=
  filter (fun r => negb (existsb cell_isnull r)) (rows_of n cols).

(** [clean_df[col1] + clean_df[col2]] against [clean_df[col3]], row by
    row; the arithmetic is defined on numeric columns. *)
Definition row_matches (r : list cell) : res bool :=
  match r with
  | [NumCell a; NumCell b; NumCell c] => Ok (isclose (xadd a b) c (1 # 100))
  | _ => Raise TypeError
  end.

Fixpoint all_rows_match (rs : list (list cell)) : res (list bool) :=
  match rs with
  | [] => Ok []
  | r :: rs' =>
      b <- row_matches r ;;
      bs <- all_rows_match rs' ;;
      Ok (b :: bs)
  end.

Definition calculation_accuracy (df : DataFrame) (base_cols : option (list string))
    : calculation_result :=
  match base_cols with
  | Some [col1; col2; col3] =>
      let missing := filter (fun c => negb (has_column df c)) [col1; col2; col3] in
      match missing with
      | _ :: _ => ConfigError ("Missing columns: " ++ repr_list missing)
      | [] =>
          let attempt :=
            c1 <- getitem df col1 ;;
            c2 <- getitem df col2 ;;
            c3 <- getitem df col3 ;;
            let clean_df := clean_rows (len df) [c1; c2; c3] in
            match clean_df with
            | [] => Ok (Accuracy (Some (Fin 0)) "No data")
            | _ =>
                close <- all_rows_match clean_df ;;
                let valid := xmul (bool_mean close) (Fin 100) in
                Ok (Accuracy (convert_to_python_types (round2 valid))
                      (if xltb valid (Fin 92) then "Issue" else "OK"))
            end in
          match attempt with
          | Ok r => r
          | Raise e => ComputeError (str_exn e) "Error"
          end
      end
  | _ =>
      ConfigError "Provide exactly 3 columns: [a, b, c] where c should equal a+b"
  end.

End PrecisionQualityService.

(* ------------------------------------------------------------------ *)
(** ** Concrete tables, parsers and renderers used in the examples *)

Module Examples.
Import CoreQualityService StatisticalQualityService SemanticQualityService
       TemporalQualityService PrecisionQualityService.

Definition digit_of (c : ascii) : option Z :=
  let n := Z.of_nat (nat_of_ascii c) in
  if ((48 <=? n) && (n <=? 57))%Z then Some (n - 48)%Z else None.

Fixpoint number_of (s : string) (acc : Z) : option Z :=
  match s with
  | EmptyString => Some acc
  | String c s' =>
      match digit_of c with
      | Some d => number_of s' (10 * acc + d)%Z
      | None => None
      end
  end.

(** Days from 1970-01-01 to a date of the proleptic Gregorian calendar. *)
Definition days_from_civil (y m d : Z) : Z :=
  (let y' := if m <=? 2 then y - 1 else y in
   let era := y' / 400 in
   let yoe := y' - era * 400 in
   let doy := (153 * (if 2 <? m then m - 3 else m + 9) + 2) / 5 + d - 1 in
   let doe := yoe * 365 + yoe / 4 - yoe / 100 + doy in
   era * 146097 + doe - 719468)%Z.

Definition is_leap (y : Z) : bool :=
  ((y mod 4 =? 0) && (negb (y mod 100 =? 0) || (y mod 400 =? 0)))%Z.

Definition days_in_month (y m : Z) : Z :=
  (if m =? 2 then (if is_leap y then 29 else 28)
   else if (m =? 4) || (m =? 6) || (m =? 9) || (m =? 11) then 30 else 31)%Z.

(** Text of the form YYYY-MM-DD, read as midnight of that day. *)
Definition parse_iso_date (s : string) : option Z :=
  if negb (Nat.eqb (String.length s) 10) then None
  else if negb (String.eqb (substring 4 1 s) "-" && String.eqb (substring 7 1 s) "-")
  then None
  else
    match number_of (substring 0 4 s) 0, number_of (substring 5 2 s) 0,
          number_of (substring 8 2 s) 0 with
    | Some y, Some m, Some d =>
        if ((1 <=? m) && (m <=? 12) && (1 <=? d) && (d <=? days_in_month y m))%Z
        then Some (days_from_civil y m d * NS_PER_DAY)%Z
        else None
    | _, _, _ => None
    end.

(** Whole numbers are nanoseconds since the epoch. *)
Definition parse_epoch_ns (x : xnum) : option Z :=
  match x with
  | Fin q => if Qeq_bool q (inject_Z (Qfloor q)) then Some (Qfloor q) else None
  | _ => None
  end.

Definition iso_parser : Parser := mkParser parse_iso_date parse_epoch_ns.

(** A renderer for whole numbers only: a float prints with ".0". *)
Fixpoint digits_of (fuel : nat) (n : Z) (acc : string) : string :=
  match fuel with
  | O => acc
  | S fuel' =>
      let acc' := String (ascii_of_nat (Z.to_nat (48 + n mod 10))) acc in
      if (n / 10 =? 0)%Z then acc' else digits_of fuel' (n / 10) acc'
  end.

Definition str_float (x : xnum) : string :=
  match x with
  | Fin q =>
      let n := Qfloor q in
      (if (n <? 0)%Z then "-" else "") ++ digits_of 40 (Z.abs n) "" ++ ".0"
  | PInf => "inf"
  | NInf => "-inf"
  | NaN => "nan"
  end.

Definition whole_renderer : Renderer :=
  mkRenderer str_float (fun t => digits_of 40 t "").

(** One numeric column [a] = 1, 2, 3. *)
Definition df_a123 : DataFrame :=
  mkDataFrame 3 [("a", NumCol [Fin 1; Fin 2; Fin 3])].

(** A frame with a column but no row. *)
Definition df_no_rows : DataFrame := mkDataFrame 0 [("a", NumCol [])].



(** The table of the specification's end-to-end example. *)
Definition df_abc : DataFrame :=
  mkDataFrame 4 [("a", NumCol [Fin 1; Fin 2; Fin 3; Fin 4]);
                 ("b", NumCol [Fin 10; Fin 20; Fin 30; Fin 40]);
                 ("c", NumCol [Fin 11; Fin 22; Fin 33; Fin 44])].

(** Columns a, b, c where every row misses one of the three values. *)
Definition df_abc_incomplete : DataFrame :=
  mkDataFrame 2 [("a", NumCol [Fin 1; NaN]);
                 ("b", NumCol [NaN; Fin 20]);
                 ("c", NumCol [Fin 11; Fin 22])].




(** The rule and the table of the specification's domain example. *)
Definition config_status : Config :=
  mkConfig [] [("status", [VStr "A"; VStr "B"])] [] [] [] [].

(** A status between "A" and "B" in the order of strings. *)
Definition df_status_between : DataFrame :=
  mkDataFrame 2 [("status", TextCol [Some "A"; Some "AB"])].


(** One timestamp only. *)
Definition df_one_stamp : DataFrame := mkDataFrame 1 [("t", TimeCol [Some 0%Z])].

(** Three timestamps within the first hour of one day. *)
Definition df_same_hour : DataFrame :=
  mkDataFrame 3
    [("t", TimeCol [Some 0; Some 60000000000; Some 120000000000]%Z)].

(** Timestamps one regular hour apart, with one long gap. *)
Definition df_hourly : DataFrame :=
  mkDataFrame 5
    [("t", TimeCol [Some 0; Some 3600000000000; Some 7200000000000;
                    Some 10800000000000; Some 36000000000000]%Z)].

(** Dates held as text. *)
Definition df_text_dates : DataFrame :=
  mkDataFrame 3 [("d", TextCol [Some "2024-01-01"; Some "2024-01-02"; Some "2024-01-09"])].

End Examples.

(* ------------------------------------------------------------------ *)
(** ** The quantities the specification speaks of *)

Module Spec.
Import CoreQualityService.








End Spec.

(* ------------------------------------------------------------------ *)
(** ** The remaining operations of core_quality_service.py *)

Module CoreQuality.

(** [for col, v in d.items(): if col in df.columns: result[col] = body] *)
Fixpoint for_items {V E : Type} (df : DataFrame)
    (body : string -> V -> res E) (items : dict V) (result : dict E)
    : res (dict E) :=
  match items with
  | [] => Ok result
  | (col, v) :: rest =>
      if has_column df col then
        e <- body col v ;;
        for_items df body rest (dict_set col e result)
      else for_items df body rest result
  end.

(** [series < v] and [series > v] against a number. *)
Definition less_than (c : column) (v : Q) : res (list bool) :=
  xs <- numeric c ;; Ok (map (fun x => xltb x (Fin v)) xs).

Definition greater_than (c : column) (v : Q) : res (list bool) :=
  xs <- numeric c ;; Ok (map (fun x => xgtb x (Fin v)) xs).

(** The element-wise [|] of two boolean Series. *)
Definition series_or (a b : list bool) : list bool :=
  map (fun p => fst p || snd p) (combine a b).

Section Consistency.
Variable P : Parser.

Definition consistency_column (df : DataFrame) (col : string) : res entry :=
  c <- getitem df col ;;
  let valid_dates := to_datetime_coerce P c in
  let valid_ratio :=
    xmul (bool_mean (map (fun t => negb (is_none t)) valid_dates)) (Fin 100) in
  Ok (mkEntry "validity_%" (round2 valid_ratio)
        (if xltb valid_ratio (Fin 90) then "Inconsistent" else "OK")).

Definition consistency (df : DataFrame) (datetime_columns : list string)
    : res (dict entry) :=
  for_each (assign (consistency_column df)) datetime_columns [].
End Consistency.

Definition validity_column (df : DataFrame) (col : string) (range : Q * Q)
    : res entry :=
  let (min_val, max_val) := range in
  c <- getitem df col ;;
  below <- less_than c min_val ;;
  above <- greater_than c max_val ;;
  let invalid_count := count_true (series_or below above) in
  Ok (mkEntry "invalid_count" (of_nat invalid_count)
        (if (0 <? invalid_count)%nat then "Invalid" else "Valid")).

Definition validity (df : DataFrame) (value_ranges : dict (Q * Q))
    : res (dict entry) :=
  for_items df (validity_column df) value_ranges [].

End CoreQuality.

(* ------------------------------------------------------------------ *)
(** ** The remaining operations of temporal_quality_service.py *)

Module TemporalQuality.
Import TemporalQualityService.

(** Python's [max(0, x)]: [x] when [x > 0] holds, else 0. *)
Definition py_max0 (x : xnum) : xnum := if xgtb x (Fin 0) then x else Fin 0.

(** [groupby(...).size()]: the number of rows of every distinct value. *)
Definition group_sizes (l : list Z) : list xnum :=
  map (fun v => of_nat (List.length (filter (Z.eqb v) l))) (nodup Z.eq_dec l).

Section Temporal.
Variable P : Parser.

(** [_get_datetime_columns] *)
Definition get_datetime_columns (df : DataFrame) (datetime_columns : list string)
    : list string :=
  filter (fun col =>
            match getitem df col with
            | Ok c =>
                xgtb (bool_mean (map (fun t => negb (is_none t))
                                     (to_datetime_coerce P c)))
                     (Fin (1 # 2))
            | Raise _ => false
            end) datetime_columns.

Definition timestamp_accuracy_column (df : DataFrame) (col : string)
    : res entry :=
  c <- getitem df col ;;
  let parsed := to_datetime_coerce P c in
  let total := List.length parsed in
  let valid := count_true (map (fun t => negb (is_none t)) parsed) in
  let accuracy :=
    if (0 <? total)%nat
    then round2 (xmul (xdiv (of_nat valid) (of_nat total)) (Fin 100))
    else Fin 0 in
  Ok (mkEntry "accuracy_%" accuracy
        (if xltb accuracy (Fin 90) then "Issue" else "OK")).

Definition timestamp_accuracy (df : DataFrame) (datetime_columns : list string)
    : res (dict entry) :=
  for_each (assign (timestamp_accuracy_column df)) datetime_columns [].

Definition temporal_granularity_column (df : DataFrame) (col : string)
    : res entry :=
  c <- getitem df col ;;
  let diffs := map Fin (gaps_seconds (dropna_time (to_datetime_coerce P c))) in
  let granularity :=
    match diffs with
    | [] => Fin 0
    | _ =>
        let std_ratio :=
          if xgtb (mean diffs) (Fin 0)
          then xdiv (std 1 diffs) (mean diffs) else PInf in
        round2 (py_max0 (xmul (xsub (Fin 1) std_ratio) (Fin 100)))
    end in
  Ok (mkEntry "granularity_%" granularity
        (if xltb granularity (Fin 85) then "Issue" else "OK")).

Definition temporal_granularity (df : DataFrame) (datetime_columns : list string)
    : res (dict entry) :=
  for_each (assign (temporal_granularity_column df)) datetime_columns [].

Definition seasonality_detection_column (df : DataFrame) (col : string)
    : res entry :=
  c <- getitem df col ;;
  let parsed := dropna_time (to_datetime_coerce P c) in
  if (List.length parsed <? 10)%nat
  then Ok (mkEntry "seasonality_%" (Fin 0) "Issue")
  else
    let daily_pattern := group_sizes (map hour parsed) in
    let seasonality_strength :=
      if xgtb (mean daily_pattern) (Fin 0)
      then round2 (xmul (xsub (Fin 1)
                           (xdiv (std 1 daily_pattern) (mean daily_pattern)))
                        (Fin 100))
      else Fin 0 in
    Ok (mkEntry "seasonality_%" seasonality_strength
          (if xltb seasonality_strength (Fin 70) then "Issue" else "OK")).

Definition seasonality_detection (df : DataFrame) (datetime_columns : list string)
    : res (dict entry) :=
  for_each (assign (seasonality_detection_column df)) datetime_columns [].
End Temporal.

End TemporalQuality.

(* ------------------------------------------------------------------ *)
(** ** The remaining operations of statistical_quality_service.py *)

Module StatisticalQuality.

(** [round(x, d)] *)
Definition qround_dec (d : nat) (q : Q) : Q :=
  Qred (round_half_even (q * inject_Z (10 ^ Z.of_nat d))
          # Z.to_pos (10 ^ Z.of_nat d)).

Definition round_dec (d : nat) (a : xnum) : xnum :=
  match a with
  | Fin q => Fin (qround_dec d q)
  | _ => a
  end.

(** A record whose numeric field may be None. *)
Record optional_entry : Type := mkOptional {
  o_field : string;
  o_value : option xnum;
  o_status : string
}.

(** [series.between(lo, hi, inclusive="both")] *)
Definition between (c : column) (lo hi : Q) : res (list bool) :=
  xs <- numeric c ;;
  Ok (map (fun x => xleb (Fin lo) x && xleb x (Fin hi)) xs).

(** [len(series.dropna())] *)
Definition count_present (c : column) : nat :=
  count_true (map negb (isnull c)).

Definition range_conformity_column (df : DataFrame) (col : string) (range : Q * Q)
    : res optional_entry :=
  let (min_val, max_val) := range in
  c <- getitem df col ;;
  let total := count_present c in
  if (total =? 0)%nat
  then Ok (mkOptional "conformity_%" None "No Data")
  else
    in_range <- between c min_val max_val ;;
    let conformity :=
      xmul (xdiv (of_nat (count_true in_range)) (of_nat total)) (Fin 100) in
    Ok (mkOptional "conformity_%" (Some (round2 conformity))
          (if xltb conformity (Fin 90) then "Issue" else "OK")).

Definition range_conformity (df : DataFrame) (value_ranges : dict (Q * Q))
    : res (dict optional_entry) :=
  CoreQuality.for_items df (range_conformity_column df) value_ranges [].

(** [Series.median] of a numeric column, skipping missing values. *)
Definition xmedian (xs : list xnum) : xnum :=
  let s := sorted xleb (dropna_num xs) in
  let n := List.length s in
  match n with
  | O => NaN
  | _ =>
      if Nat.even n
      then xdiv (xadd (nth (n / 2 - 1) s NaN) (nth (n / 2) s NaN)) (Fin 2)
      else nth (n / 2) s NaN
  end.

Record anomalies_entry : Type := mkAnomalies {
  spikes : Z;
  drops : Z;
  a_status : string
}.

Definition statistical_anomalies_column (df : DataFrame) (col : string)
    : res anomalies_entry :=
  c <- getitem df col ;;
  xs <- numeric c ;;
  let median := xmedian xs in
  let spikes := filter (fun x => xgtb x (xmul median (Fin 5))) xs in
  let drops := filter (fun x => xltb x (xmul median (Fin (1 # 5)))) xs in
  Ok (mkAnomalies (Z.of_nat (List.length spikes)) (Z.of_nat (List.length drops))
        (if (0 <? List.length spikes + List.length drops)%nat
         then "Anomalies Found" else "OK")).

Definition statistical_anomalies (df : DataFrame) (numeric_cols : list string)
    : res (dict anomalies_entry) :=
  for_each (assign (statistical_anomalies_column df)) numeric_cols [].

Definition coefficient_variation_column (df : DataFrame) (col : string)
    : res optional_entry :=
  c <- getitem df col ;;
  xs <- numeric c ;;
  let mean := mean xs in
  let std := std 1 xs in
  let cv := if negb (xeqb mean (Fin 0)) then xdiv std mean else NaN in
  if isnan cv
  then Ok (mkOptional "cv" None "N/A")
  else Ok (mkOptional "cv" (Some (round_dec 3 cv))
             (if xgtb cv (Fin 2) then "High Variability" else "OK")).

Definition coefficient_variation (df : DataFrame) (numeric_cols : list string)
    : res (dict optional_entry) :=
  for_each (assign (coefficient_variation_column df)) numeric_cols [].

(** Consecutive pieces of the given sizes. *)
Fixpoint split_sizes {A : Type} (l : list A) (sizes : list nat) : list (list A) :=
  match sizes with
  | [] => []
  | k :: rest => firstn k l :: split_sizes (skipn k l) rest
  end.

(** [np.array_split(l, n)]: the first [len mod n] pieces have one element
    more than the others. *)
Definition array_split {A : Type} (l : list A) (n : nat) : list (list A) :=
  let each := (List.length l / n)%nat in
  let extras := (List.length l mod n)%nat in
  split_sizes l (repeat (S each) extras ++ repeat each (n - extras)).

(** [np.mean] and [np.std] of a list: a NaN in the list is not skipped. *)
Definition np_mean (l : list xnum) : xnum :=
  xdiv (xsum l) (of_nat (List.length l)).

Definition np_std (l : list xnum) : xnum :=
  let m := np_mean l in
  xsqrt (np_mean (map (fun x => xmul (xabs (xsub x m)) (xabs (xsub x m))) l)).

(** The record of a column, or [None] when the column is left out. *)
Definition variance_stability_column (df : DataFrame) (col : string)
    : res (option entry) :=
  c <- getitem df col ;;
  xs <- numeric c ;;
  let chunks := array_split (dropna_num xs) 5 in
  let variances :=
    map (var 1) (filter (fun chunk => (1 <? List.length chunk)%nat) chunks) in
  if (1 <? List.length variances)%nat
  then
    let cv :=
      if negb (xeqb (np_mean variances) (Fin 0))
      then xdiv (np_std variances) (np_mean variances) else NaN in
    Ok (Some (mkEntry "cv_variance" (round_dec 3 cv)
                (if xgtb cv (Fin (1 # 2)) then "Unstable" else "Stable")))
  else Ok None.

Definition variance_stability (df : DataFrame) (numeric_cols : list string)
    : res (dict entry) :=
  for_each (variance_stability_column df) numeric_cols [].

End StatisticalQuality.

(* ------------------------------------------------------------------ *)
(** ** The remaining operations of semantic_quality_service.py *)

Module SemanticQuality.
Import SemanticQualityService.

Record integrity_result : Type := mkIntegrity {
  inconsistent_columns : list string;
  integrity_score : xnum;
  i_status : string
}.

(** [df[col].isna().mean()] of a column the table has. *)
Definition null_ratio (df : DataFrame) (col : string) : xnum :=
  match getitem df col with
  | Ok c => bool_mean (isnull c)
  | Raise _ => NaN
  end.

Definition referential_integrity (config : Config) (df : DataFrame)
    : integrity_result :=
  let inconsistent :=
    filter (fun col => has_column df col
                       && xgtb (null_ratio df col) (Fin (5 # 100)))
           (identifier_columns config) in
  let score :=
    match identifier_columns config with
    | [] => Fin 1
    | _ => xsub (Fin 1)
             (xdiv (of_nat (List.length inconsistent))
                   (of_nat (List.length (identifier_columns config))))
    end in
  mkIntegrity inconsistent (round2 score)
    (if xltb score (Fin (95 # 100)) then "Issue" else "OK").

(** [a > b] of two Series, element by element: a missing value compares
    false; columns of different dtypes do not compare. *)
Definition series_gt (a b : column) : res (list bool) :=
  match a, b with
  | NumCol xs, NumCol ys =>
      Ok (map (fun p => xgtb (fst p) (snd p)) (combine xs ys))
  | TextCol xs, TextCol ys =>
      Ok (map (fun p => match p with
                        | (Some x, Some y) => String.ltb y x
                        | _ => false
                        end) (combine xs ys))
  | TimeCol xs, TimeCol ys =>
      Ok (map (fun p => match p with
                        | (Some x, Some y) => (y <? x)%Z
                        | _ => false
                        end) (combine xs ys))
  | _, _ => Raise TypeError
  end.

Record cross_field_result : Type := mkCrossField {
  violations : list string;
  cross_field_score : xnum;
  x_status : string
}.

Fixpoint cross_field_loop (df : DataFrame) (rules : list (list string))
    (issues : list string) : res (list string) :=
  match rules with
  | [] => Ok issues
  | rule :: rest =>
      match rule with
      | [a; b] =>
          if has_column df a && has_column df b then
            ca <- getitem df a ;;
            cb <- getitem df b ;;
            gt <- series_gt ca cb ;;
            let inconsistent_rows := count_true gt in
            cross_field_loop df rest
              (if (0 <? inconsistent_rows)%nat
               then issues ++ [a ++ ">" ++ b] else issues)
          else cross_field_loop df rest issues
      | _ => cross_field_loop df rest issues
      end
  end.

Definition cross_field_validation (config : Config) (df : DataFrame)
    : res cross_field_result :=
  issues <- cross_field_loop df (cross_field_rules config) [] ;;
  let score :=
    xsub (Fin 1)
         (xdiv (of_nat (List.length issues))
               (of_nat (Nat.max (List.length (cross_field_rules config)) 1))) in
  Ok (mkCrossField issues (round2 score)
        (if xltb score (Fin (9 # 10)) then "Issue" else "OK")).

(** [s.lower()] on the letters A to Z. *)
Definition lower_ascii (c : ascii) : ascii :=
  let n := nat_of_ascii c in
  if ((65 <=? n) && (n <=? 90))%nat then ascii_of_nat (n + 32) else c.

Fixpoint lower (s : string) : string :=
  match s with
  | EmptyString => EmptyString
  | String c s' => String (lower_ascii c) (lower s')
  end.

(** [sub in s] *)
Fixpoint contains (sub s : string) : bool :=
  String.prefix sub s
  || match s with
     | EmptyString => false
     | String _ s' => contains sub s'
     end.

(** [(a * b < 0).sum()] of two columns. *)
Definition negative_products (a b : column) : res nat :=
  xs <- numeric a ;;
  ys <- numeric b ;;
  Ok (count_true (map (fun p => xltb (xmul (fst p) (snd p)) (Fin 0))
                      (combine xs ys))).

Fixpoint sum_pairs (df : DataFrame) (pairs : list (string * string)) (acc : nat)
    : res nat :=
  match pairs with
  | [] => Ok acc
  | (vcol, ccol) :: rest =>
      a <- getitem df vcol ;;
      b <- getitem df ccol ;;
      k <- negative_products a b ;;
      sum_pairs df rest (acc + k)
  end.

Record semantic_result : Type := mkSemantic {
  semantic_inconsistencies : Z;
  semantic_score : xnum;
  s_status : string
}.

Definition semantic_consistency (df : DataFrame) : res semantic_result :=
  let voltage_cols :=
    filter (fun col => contains "volt" (lower col)) (column_names df) in
  let current_cols :=
    filter (fun col => contains "current" (lower col)) (column_names df) in
  inconsistent_rows <- sum_pairs df (list_prod voltage_cols current_cols) 0 ;;
  let total_combinations :=
    (List.length voltage_cols * List.length current_cols)%nat in
  let score :=
    if (0 <? len df)%nat
    then xsub (Fin 1)
           (xdiv (of_nat inconsistent_rows)
                 (of_nat (len df * Nat.max total_combinations 1)))
    else Fin 1 in
  Ok (mkSemantic (Z.of_nat inconsistent_rows) (round2 score)
        (if xltb score (Fin (92 # 100)) then "Issue" else "OK")).

Record lineage_result : Type := mkLineage {
  tracked_columns : list string;
  lineage_score : xnum;
  l_status : string
}.

Definition data_lineage_quality (config : Config) (df : DataFrame)
    : lineage_result :=
  let lineage_tracked := filter (has_column df) (metadata_columns config) in
  let lineage_score :=
    xdiv (of_nat (List.length lineage_tracked))
         (of_nat (Nat.max (List.length (metadata_columns config)) 1)) in
  mkLineage lineage_tracked (round2 lineage_score)
    (if xltb lineage_score (Fin (85 # 100)) then "Issue" else "OK").

End SemanticQuality.

(* ------------------------------------------------------------------ *)
(** ** Result values: main.py's clean_nan and the precision service's
    _convert_to_python_types *)

Module Results.

(** A value of a result: Python's own types, numpy scalars and a
    one-dimensional float64 array. *)
#[warnings="-register-all"]
Inductive pyobj : Type :=
| PDict (items : list (string * pyobj))
| PList (items : list pyobj)
| PFloat (x : xnum)
| PInt (z : Z)
| PBool (b : bool)
| PStr (s : string)
| PNone
| NpFloat (x : xnum)
| NpInt (z : Z)
| NpBool (b : bool)
| NpArray (xs : list xnum).

Definition isinf (x : xnum) : bool :=
  match x with PInf | NInf => true | _ => false end.

(** main.py, [clean_nan]: [np.float64] is an instance of [float]. *)
Fixpoint clean_nan (obj : pyobj) : pyobj :=
  match obj with
  | PDict items => PDict (map (fun kv : string * pyobj =>
                     let (k, v) := kv in (k, clean_nan v)) items)
  | PList items => PList (map clean_nan items)
  | PFloat x => if isnan x || isinf x then PNone else obj
  | NpFloat x => if isnan x || isinf x then PNone else obj
  | _ => obj
  end.

(** [ndarray.tolist()]: the elements become Python floats. *)
Definition tolist (xs : list xnum) : list pyobj := map PFloat xs.

(** [_convert_to_python_types] on a Python float, reached through its
    last two branches: [pd.isna] holds of NaN only. *)
Definition convert_float (x : xnum) : pyobj :=
  if isnan x then PNone else PFloat x.

(** precision_quality_service.py, [_convert_to_python_types] *)
Fixpoint convert_to_python_types (obj : pyobj) : pyobj :=
  match obj with
  | PDict items =>
      PDict (map (fun kv : string * pyobj =>
                    let (k, v) := kv in (k, convert_to_python_types v)) items)
  | PList items => PList (map convert_to_python_types items)
  | NpInt z => PInt z
  | NpFloat x => if isnan x then PNone else if isinf x then PNone else PFloat x
  | NpBool b => PBool b
  | NpArray xs => PList (map convert_float xs)
  | PFloat x => convert_float x
  | PNone => PNone
  | _ => obj
  end.

(** What a JSON encoder accepts: Python's own types, every float
    finite. *)
Fixpoint json_safe (obj : pyobj) : bool :=
  match obj with
  | PDict items => forallb (fun kv : string * pyobj => json_safe (snd kv)) items
  | PList items => forallb json_safe items
  | PFloat x => isfinite x
  | PInt _ | PBool _ | PStr _ | PNone => true
  | NpFloat _ | NpInt _ | NpBool _ | NpArray _ => false
  end.

(** Every float of the value, outside arrays, is finite. *)
Fixpoint floats_finite (obj : pyobj) : bool :=
  match obj with
  | PDict items => forallb (fun kv : string * pyobj => floats_finite (snd kv)) items
  | PList items => forallb floats_finite items
  | PFloat x | NpFloat x => isfinite x
  | _ => true
  end.

(** No numpy value and no NaN; an infinite Python float may remain. *)
Fixpoint python_native (obj : pyobj) : bool :=
  match obj with
  | PDict items => forallb (fun kv : string * pyobj => python_native (snd kv)) items
  | PList items => forallb python_native items
  | PFloat x => negb (isnan x)
  | PInt _ | PBool _ | PStr _ | PNone => true
  | NpFloat _ | NpInt _ | NpBool _ | NpArray _ => false
  end.

(** Induction on a value and on the values it holds. *)
Section Induction.
Variable P : pyobj -> Prop.
Hypothesis Hdict :
  forall items, Forall (fun kv => P (snd kv)) items -> P (PDict items).
Hypothesis Hlist : forall items, Forall P items -> P (PList items).
Hypothesis Hleaf :
  forall obj,
    match obj with PDict _ | PList _ => False | _ => True end -> P obj.

Fixpoint pyobj_induction (obj : pyobj) : P obj :=
  match obj with
  | PDict items =>
      Hdict items
        ((fix go (l : list (string * pyobj)) : Forall (fun kv => P (snd kv)) l :=
            match l with
            | [] => Forall_nil _
            | kv :: l' => Forall_cons kv (pyobj_induction (snd kv)) (go l')
            end) items)
  | PList items =>
      Hlist items
        ((fix go (l : list pyobj) : Forall P l :=
            match l with
            | [] => Forall_nil _
            | o :: l' => Forall_cons o (pyobj_induction o) (go l')
            end) items)
  | PFloat x => Hleaf (PFloat x) I
  | PInt z => Hleaf (PInt z) I
  | PBool b => Hleaf (PBool b) I
  | PStr s => Hleaf (PStr s) I
  | PNone => Hleaf PNone I
  | NpFloat x => Hleaf (NpFloat x) I
  | NpInt z => Hleaf (NpInt z) I
  | NpBool b => Hleaf (NpBool b) I
  | NpArray xs => Hleaf (NpArray xs) I
  end.
End Induction.

End Results.

(* ------------------------------------------------------------------ *)
(** ** The remaining operations of precision_quality_service.py *)

Module PrecisionQuality.
Import PrecisionQualityService.

(** [Series.round()] and [np.round]: to the nearest whole number, ties
    to even; an infinity stays. *)
Definition xround (x : xnum) : xnum :=
  match x with
  | Fin q => Fin (inject_Z (round_half_even q))
  | _ => x
  end.

(** The default absolute tolerance of [np.isclose]. *)
Definition ATOL : Q := 1 # 100000000.

Inductive match_entry : Type :=
| MatchPercent (match_percent : option xnum) (status : string)
| MatchError (error : string) (status : string).

(** Is the value close to its rounding, or its double to the rounding of
    the double? *)
Definition rounds_well (x : xnum) : bool :=
  isclose x (xround x) ATOL
  || isclose (xmul x (Fin 2)) (xround (xmul x (Fin 2))) ATOL.

(** The body of the [try] for one column. *)
Definition rounding_consistency_try (df : DataFrame) (col : string)
    : res match_entry :=
  c <- getitem df col ;;
  match filter (fun x => negb (cell_isnull x)) (cells c) with
  | [] => Ok (MatchPercent (Some (Fin 0)) "No data")
  | _ =>
      xs <- numeric c ;;
      let clean_col := dropna_num xs in
      let match_ratio := xmul (bool_mean (map rounds_well clean_col)) (Fin 100) in
      Ok (MatchPercent (convert_to_python_types (round2 match_ratio))
            (if xltb match_ratio (Fin 88) then "Issue" else "OK"))
  end.

Definition rounding_consistency_column (df : DataFrame) (col : string)
    : match_entry :=
  match rounding_consistency_try df col with
  | Ok e => e
  | Raise e => MatchError (str_exn e) "Error"
  end.

Fixpoint rounding_consistency_loop (df : DataFrame) (numeric_columns : list string)
    (result : dict match_entry) : dict match_entry :=
  match numeric_columns with
  | [] => result
  | col :: rest =>
      rounding_consistency_loop df rest
        (dict_set col (rounding_consistency_column df col) result)
  end.

Definition rounding_consistency (df : DataFrame) (numeric_columns : list string)
    : dict match_entry :=
  rounding_consistency_loop df numeric_columns [].

Inductive measurement_entry : Type :=
| Measured (most_common_decimals : option nat) (precision_percent : option xnum)
    (status : string)
| MeasurementError (error : string) (status : string).

Definition occurrences (l : list nat) (n : nat) : nat := count_occ Nat.eq_dec l n.

(** [decimals.mode()[0]]: the most frequent value, and the smallest of
    them when several are as frequent. *)
Definition mode (l : list nat) : option nat :=
  match sorted Nat.leb (nodup Nat.eq_dec l) with
  | [] => None
  | x :: xs =>
      Some (fold_left
              (fun best y =>
                 if (occurrences l best <? occurrences l y)%nat then y else best)
              xs x)
  end.

Section MeasurementPrecision.
Variable R : Renderer.

(** The body of the [try] for one column. *)
Definition measurement_precision_try (df : DataFrame) (col : string)
    : res measurement_entry :=
  c <- getitem df col ;;
  let clean_col := filter (fun x => negb (cell_isnull x)) (cells c) in
  match clean_col with
  | [] => Ok (Measured None (Some (Fin 0)) "No data")
  | _ =>
      let decimals := map decimal_places (dropna_str (map (py_str R) clean_col)) in
      match decimals with
      | [] => Ok (Measured None (Some (Fin 0)) "No data")
      | _ =>
          let most_common := mode decimals in
          let ratio :=
            match most_common with
            | Some m => xmul (bool_mean (map (Nat.eqb m) decimals)) (Fin 100)
            | None => Fin 0
            end in
          Ok (Measured most_common (convert_to_python_types (round2 ratio))
                (if xltb ratio (Fin 90) then "Issue" else "OK"))
      end
  end.

Definition measurement_precision_column (df : DataFrame) (col : string)
    : measurement_entry :=
  match measurement_precision_try df col with
  | Ok e => e
  | Raise e => MeasurementError (str_exn e) "Error"
  end.

Fixpoint measurement_precision_loop (df : DataFrame) (numeric_columns : list string)
    (result : dict measurement_entry) : dict measurement_entry :=
  match numeric_columns with
  | [] => result
  | col :: rest =>
      measurement_precision_loop df rest
        (dict_set col (measurement_precision_column df col) result)
  end.

Definition measurement_precision (df : DataFrame) (numeric_columns : list string)
    : dict measurement_entry :=
  measurement_precision_loop df numeric_columns [].
End MeasurementPrecision.

End PrecisionQuality.

(* ------------------------------------------------------------------ *)
(** ** structural_quality_service.py *)

Module StructuralQualityService.

Record Config : Type := mkConfig {
  expected_schema : list string;
  identifier_columns : list string;
  datetime_columns : list string
}.

Record ratio_result : Type := mkRatio {
  listed_columns : list string;
  ratio_score : xnum;
  r_status : string
}.

Definition schema_conformity (config : Config) (df : DataFrame) : ratio_result :=
  let missing_cols :=
    filter (fun col => negb (has_column df col)) (expected_schema config) in
  let conformity_score :=
    match expected_schema config with
    | [] => Fin 1
    | _ => xsub (Fin 1)
             (xdiv (of_nat (List.length missing_cols))
                   (of_nat (List.length (expected_schema config))))
    end in
  mkRatio missing_cols (round2 conformity_score)
    (match missing_cols with [] => "OK" | _ => "Issue" end).



(** A character of the class [a-zA-Z0-9_]. *)
Definition word_char (c : ascii) : bool :=
  let n := nat_of_ascii c in
  ((97 <=? n) && (n <=? 122) || (65 <=? n) && (n <=? 90)
   || (48 <=? n) && (n <=? 57) || (n =? 95))%nat.

Fixpoint all_word_chars (s : string) : bool :=
  match s with
  | EmptyString => true
  | String c s' => word_char c && all_word_chars s'
  end.

(** Does [^[a-zA-Z0-9_]+$] match?  [$] also matches before a newline
    that ends the string. *)
Fixpoint pattern_match (s : string) : bool :=
  match s with
  | EmptyString => false
  | String c s' =>
      word_char c
      && match s' with
         | EmptyString => true
         | String "010"%char EmptyString => true
         | _ => pattern_match s'
         end
  end.

Definition naming_convention (df : DataFrame) : res ratio_result :=
  let invalid_names :=
    filter (fun col => negb (pattern_match col) || (50 <? String.length col)%nat)
           (column_names df) in
  r <- py_div (Z.of_nat (List.length invalid_names))
              (Z.of_nat (List.length (column_names df))) ;;
  let score := xsub (Fin 1) r in
  Ok (mkRatio invalid_names (round2 score)
        (if xltb score (Fin (7 # 10)) then "Issue" else "OK")).

(** The number of distinct values under a boolean equality. *)
Fixpoint distinct {A : Type} (eqb : A -> A -> bool) (l : list A) : list A :=
  match l with
  | [] => []
  | x :: l' =>
      if existsb (eqb x) l' then distinct eqb l' else x :: distinct eqb l'
  end.

Definition option_values {A : Type} (l : list (option A)) : list A :=
  flat_map (fun o => match o with Some x => [x] | None => [] end) l.

(** [Series.nunique()]: the distinct values present. *)
Definition nunique (c : column) : nat :=
  match c with
  | NumCol xs => List.length (distinct xeqb (dropna_num xs))
  | TextCol xs => List.length (distinct String.eqb (option_values xs))
  | TimeCol xs => List.length (distinct Z.eqb (option_values xs))
  end.

(** [for col in cols: if col in df.columns: result[col] = body(df[col])],
    also the dict comprehension
    [{col: body(df[col]) for col in cols if col in df.columns}]. *)
Fixpoint for_present {V : Type} (df : DataFrame) (body : column -> V)
    (cols : list string) (result : dict V) : dict V :=
  match cols with
  | [] => result
  | col :: rest =>
      if has_column df col
      then match getitem df col with
           | Ok c => for_present df body rest (dict_set col (body c) result)
           | Raise _ => for_present df body rest result
           end
      else for_present df body rest result
  end.

Inductive integrity_result : Type :=
| NotConfigured (status : string)
| Cardinalities (cardinalities : dict nat) (status : string).

Definition structural_integrity (config : Config) (df : DataFrame)
    : integrity_result :=
  match identifier_columns config with
  | [] => NotConfigured "No identifier columns configured"
  | _ =>
      let cardinalities := for_present df nunique (identifier_columns config) [] in
      let consistent :=
        (List.length (nodup Nat.eq_dec (map snd cardinalities)) =? 1)%nat in
      Cardinalities cardinalities (if consistent then "OK" else "Inconsistent")
  end.

Record cardinality_result : Type := mkCardinality {
  unique_ratios : dict xnum;
  low_cardinality_columns : list string;
  c_status : string
}.

Definition unique_ratio (df : DataFrame) (c : column) : xnum :=
  let ratio :=
    if (0 <? len df)%nat
    then xdiv (of_nat (nunique c)) (of_nat (len df))
    else Fin 0 in
  round2 ratio.

Definition cardinality_quality (config : Config) (df : DataFrame)
    : cardinality_result :=
  let ratios := for_present df (unique_ratio df) (identifier_columns config) [] in
  let low_cardinality :=
    map fst (filter (fun kv => xltb (snd kv) (Fin (1 # 2))) ratios) in
  mkCardinality ratios low_cardinality
    (match low_cardinality with [] => "OK" | _ => "Low cardinality issue" end).

Record drift_result : Type := mkDrift {
  new_columns : list string;
  missing_columns : list string;
  dr_status : string
}.

(** [list(set(a) - set(b))]; Python does not fix the order of the
    list. *)
Definition set_difference (a b : list string) : list string :=
  nodup string_dec (filter (fun x => negb (existsb (String.eqb x) b)) a).

Definition schema_drift (config : Config) (df : DataFrame) : drift_result :=
  let new_cols := set_difference (column_names df) (expected_schema config) in
  let missing_cols := set_difference (expected_schema config) (column_names df) in
  mkDrift new_cols missing_cols
    (match new_cols, missing_cols with
     | [], [] => "OK"
     | _, _ => "Drift Detected"
     end).

Record metadata_result : Type := mkMetadata {
  datetime_present : bool;
  column_count : nat;
  m_status : string
}.

Definition metadata_completeness (config : Config) (df : DataFrame)
    : metadata_result :=
  let datetime_present := existsb (has_column df) (datetime_columns config) in
  let sufficient_columns := (5 <=? List.length (column_names df))%nat in
  mkMetadata datetime_present (List.length (column_names df))
    (if datetime_present && sufficient_columns then "OK" else "Issue").

End StructuralQualityService.

(* ------------------------------------------------------------------ *)
(** ** information_quality_service.py *)

Module InformationQualityService.

(** [df[col].notna().sum()] *)
Definition non_null (c : column) : nat := count_true (map negb (isnull c)).

(** The loops run over the columns of the table itself, so the lookup of
    a column does not fail and the [except] branches are not reached. *)
Definition information_density_column (c : column) : entry :=
  let total := col_len c in
  let density :=
    if (0 <? total)%nat
    then round2 (xmul (xdiv (of_nat (non_null c)) (of_nat total)) (Fin 100))
    else Fin 0 in
  mkEntry "information_density_%" density
    (if xltb density (Fin 80) then "Issue" else "OK").

Definition information_density (df : DataFrame) : dict entry :=
  fold_left (fun result kc => dict_set (fst kc) (information_density_column (snd kc)) result)
            (columns df) [].

(** The record of sparsity_score has no status. *)
Definition sparsity_column (c : column) : xnum :=
  let total := col_len c in
  let density :=
    if (0 <? total)%nat
    then xmul (xdiv (of_nat (non_null c)) (of_nat total)) (Fin 100)
    else Fin 0 in
  round2 (xsub (Fin 100) density).

Definition sparsity_score (df : DataFrame) : dict xnum :=
  fold_left (fun result kc => dict_set (fst kc) (sparsity_column (snd kc)) result)
            (columns df) [].

(** [df[col].duplicated()]: a value is marked when an earlier value of
    the column equals it; a missing value equals a missing value. *)
Definition series_duplicated (c : column) : list bool :=
  duplicated_from [] (map (fun x => [x]) (cells c)).

Definition redundancy_column (c : column) : entry :=
  let dup_ratio := xmul (bool_mean (series_duplicated c)) (Fin 100) in
  let redundancy := round2 (xsub (Fin 100) dup_ratio) in
  mkEntry "redundancy_%" redundancy
    (if xltb redundancy (Fin 90) then "Issue" else "OK").

Definition redundancy_score (df : DataFrame) : dict entry :=
  fold_left (fun result kc => dict_set (fst kc) (redundancy_column (snd kc)) result)
            (columns df) [].

Section Compression.
Variable R : PrecisionQualityService.Renderer.

(** [df[col].dropna().astype(str)] *)
Definition present_strings (c : column) : list string :=
  PrecisionQualityService.dropna_str
    (map (PrecisionQualityService.py_str R)
         (filter (fun x => negb (cell_isnull x)) (cells c))).

Definition compression_ratio_column (c : column) : entry :=
  let series := present_strings c in
  let unique_ratio :=
    if (0 <? List.length series)%nat
    then xdiv (of_nat (List.length (StructuralQualityService.distinct String.eqb series)))
              (of_nat (List.length series))
    else Fin 0 in
  let compression := round2 (xmul (xsub (Fin 1) unique_ratio) (Fin 100)) in
  mkEntry "compression_ratio_%" compression
    (if xltb compression (Fin 85) then "Issue" else "OK").

Definition compression_ratio (df : DataFrame) : dict entry :=
  fold_left (fun result kc => dict_set (fst kc) (compression_ratio_column (snd kc)) result)
            (columns df) [].
End Compression.

End InformationQualityService.

(* ------------------------------------------------------------------ *)
(** ** Rounding *)


(* ------------------------------------------------------------------ *)
(** ** Further tables *)

Module MoreExamples.

(** A voltage and a current column; the current is negative in the
    second row. *)
Definition df_voltage_current : DataFrame :=
  mkDataFrame 2 [("Voltage_A", NumCol [Fin 230; Fin 231]);
                 ("current_a", NumCol [Fin 5; Fin (-5 # 1)])].

(** A reading above 50000 with decimals, a whole number and a missing
    value. *)
Definition df_large_reading : DataFrame :=
  mkDataFrame 3 [("kwh", NumCol [Fin (100001 # 2); Fin 3; NaN])].


(** Bounds for column a and for a column the tables do not have. *)
Definition ranges_a_zz : dict (Q * Q) := [("a", (0%Q, 2%Q)); ("zz", (0%Q, 1%Q))].

(** Identifier columns a and b. *)
Definition config_ids_ab : StructuralQualityService.Config :=
  StructuralQualityService.mkConfig [] ["a"; "b"] [].

End MoreExamples.

(** Well-formedness of a concrete table. *)
Ltac solve_well_formed :=
  split;
  [ repeat constructor
  | repeat (constructor; [simpl; intuition discriminate|]); constructor ].

(* ------------------------------------------------------------------ *)
(** * Properties *)

Import CoreQualityService StatisticalQualityService SemanticQualityService
       TemporalQualityService PrecisionQualityService.

(** ** Rounding *)

Lemma round_half_even_cases (q : Q) :
  round_half_even q = Qfloor q \/ round_half_even q = (Qfloor q + 1)%Z.
Proof.
  unfold round_half_even.
  destruct (Qcompare _ _); [destruct (Z.even _) | |]; auto.
Qed.

Lemma round_half_even_comp (x y : Q) :
  (x == y)%Q -> round_half_even x = round_half_even y.
Proof.
  intros E. unfold round_half_even.
  rewrite (Qfloor_comp _ _ E).
  assert (Ec : ((x - inject_Z (Qfloor y)) ?= 1 # 2)%Q
               = ((y - inject_Z (Qfloor y)) ?= 1 # 2)%Q).
  { apply Qcompare_comp; [rewrite E|]; reflexivity. }
  rewrite Ec. reflexivity.
Qed.

Lemma round_half_even_le (q : Q) (z : Z) :
  (q <= inject_Z z)%Q -> (round_half_even q <= z)%Z.
Proof.
  intros H.
  assert (Hf : (Qfloor q <= z)%Z).
  { rewrite <- (Qfloor_Z z). apply Qfloor_resp_le. exact H. }
  unfold round_half_even.
  destruct (Qcompare (q - inject_Z (Qfloor q)) (1 # 2)) eqn:C.
  - destruct (Z.even (Qfloor q)); [exact Hf|].
    apply Qeq_alt in C.
    assert (L : (inject_Z (Qfloor q) < inject_Z z)%Q) by lra.
    rewrite <- Zlt_Qlt in L. lia.
  - exact Hf.
  - apply Qgt_alt in C.
    assert (L : (inject_Z (Qfloor q) < inject_Z z)%Q) by lra.
    rewrite <- Zlt_Qlt in L. lia.
Qed.

Lemma round_half_even_ge (q : Q) (z : Z) :
  (inject_Z z <= q)%Q -> (z <= round_half_even q)%Z.
Proof.
  intros H.
  assert (Hf : (z <= Qfloor q)%Z).
  { rewrite <- (Qfloor_Z z). apply Qfloor_resp_le. exact H. }
  destruct (round_half_even_cases q) as [E | E]; rewrite E; lia.
Qed.

Lemma round_half_even_near (q : Q) :
  (q - (1 # 2) <= inject_Z (round_half_even q) <= q + (1 # 2))%Q.
Proof.
  pose proof (Qfloor_le q) as Hl.
  pose proof (Qlt_floor q) as Hu.
  rewrite inject_Z_plus in Hu. change (inject_Z 1) with 1%Q in Hu.
  unfold round_half_even.
  destruct (Qcompare (q - inject_Z (Qfloor q)) (1 # 2)) eqn:C.
  - apply Qeq_alt in C.
    destruct (Z.even (Qfloor q));
      [|rewrite inject_Z_plus; change (inject_Z 1) with 1%Q]; lra.
  - apply Qlt_alt in C. lra.
  - apply Qgt_alt in C. rewrite inject_Z_plus.
    change (inject_Z 1) with 1%Q. lra.
Qed.

Lemma qround2_comp (x y : Q) : (x == y)%Q -> qround2 x = qround2 y.
Proof.
  intros E. unfold qround2.
  rewrite (round_half_even_comp (x * 100) (y * 100)); [reflexivity|].
  rewrite E. reflexivity.
Qed.

Lemma qround2_eq (q : Q) : (qround2 q == round_half_even (q * 100) # 100)%Q.
Proof. unfold qround2. apply Qred_correct. Qed.

Lemma Qmake_100 (z : Z) : (z # 100 == inject_Z z / 100)%Q.
Proof. unfold Qeq, Qdiv, Qmult, Qinv, inject_Z; simpl. lia. Qed.

(** Rounding to two decimals does not cross a whole bound. *)
Lemma qround2_le (q : Q) (hi : Z) :
  (q <= inject_Z hi)%Q -> (qround2 q <= inject_Z hi)%Q.
Proof.
  intros Hhi.
  assert (U : (round_half_even (q * 100) <= hi * 100)%Z).
  { apply round_half_even_le. rewrite inject_Z_mult.
    change (inject_Z 100) with 100%Q. nra. }
  rewrite qround2_eq, Qmake_100.
  rewrite Zle_Qle in U. rewrite inject_Z_mult in U.
  change (inject_Z 100) with 100%Q in U.
  apply Qle_shift_div_r; [reflexivity | lra].
Qed.

Lemma qround2_ge (q : Q) (lo : Z) :
  (inject_Z lo <= q)%Q -> (inject_Z lo <= qround2 q)%Q.
Proof.
  intros Hlo.
  assert (L : (lo * 100 <= round_half_even (q * 100))%Z).
  { apply round_half_even_ge. rewrite inject_Z_mult.
    change (inject_Z 100) with 100%Q. nra. }
  rewrite qround2_eq, Qmake_100.
  rewrite Zle_Qle in L. rewrite inject_Z_mult in L.
  change (inject_Z 100) with 100%Q in L.
  apply Qle_shift_div_l; [reflexivity | lra].
Qed.

Lemma qround2_between (q : Q) (lo hi : Z) :
  (inject_Z lo <= q <= inject_Z hi)%Q ->
  (inject_Z lo <= qround2 q <= inject_Z hi)%Q.
Proof.
  intros [Hlo Hhi]. split; [apply qround2_ge | apply qround2_le]; assumption.
Qed.

(** ** Arithmetic of [xnum] on finite values *)

Lemma of_Z_div (a b : Z) :
  b <> 0%Z -> xdiv (of_Z a) (of_Z b) = Fin (Qred (inject_Z a / inject_Z b)).
Proof.
  intros Hb. unfold of_Z, xdiv.
  destruct (Qeq_bool (inject_Z b) 0) eqn:E; [|reflexivity].
  apply Qeq_bool_eq in E. unfold Qeq, inject_Z in E. simpl in E. lia.
Qed.

Lemma xgtb_Fin (x y : Q) : xgtb (Fin x) (Fin y) = true <-> (y < x)%Q.
Proof.
  unfold xgtb, xltb. rewrite negb_true_iff.
  split.
  - intros H. apply Qnot_le_lt. intros L.
    apply Qle_bool_iff in L. congruence.
  - intros H. destruct (Qle_bool x y) eqn:E; [|reflexivity].
    apply Qle_bool_iff in E. lra.
Qed.

Lemma xltb_Fin (x y : Q) : xltb (Fin x) (Fin y) = true <-> (x < y)%Q.
Proof. apply (xgtb_Fin y x). Qed.

Lemma xgtb_Fin_false (x y : Q) : xgtb (Fin x) (Fin y) = false <-> (x <= y)%Q.
Proof.
  rewrite <- not_true_iff_false, xgtb_Fin. split.
  - apply Qnot_lt_le.
  - intros H L. lra.
Qed.

Lemma xltb_Fin_false (x y : Q) : xltb (Fin x) (Fin y) = false <-> (y <= x)%Q.
Proof. apply (xgtb_Fin_false y x). Qed.

(** ** Completeness *)

Lemma count_true_le (l : list bool) : (count_true l <= List.length l)%nat.
Proof. unfold count_true. apply filter_length_le. Qed.








(** ** Loops over columns *)

Lemma dict_get_set_same {V : Type} (k : string) (v : V) (d : dict V) :
  dict_get k (dict_set k v d) = Some v.
Proof.
  induction d as [|[k' v'] d IH]; simpl.
  - rewrite String.eqb_refl. reflexivity.
  - destruct (String.eqb k k') eqn:E; simpl.
    + rewrite String.eqb_refl. reflexivity.
    + rewrite E. exact IH.
Qed.

Lemma dict_get_set_other {V : Type} (k k' : string) (v : V) (d : dict V) :
  k <> k' -> dict_get k (dict_set k' v d) = dict_get k d.
Proof.
  intros N. apply String.eqb_neq in N.
  induction d as [|[k2 v2] d IH]; simpl.
  - rewrite N. reflexivity.
  - destruct (String.eqb k' k2) eqn:E; simpl.
    + apply String.eqb_eq in E. subst k2. rewrite N. reflexivity.
    + rewrite IH. reflexivity.
Qed.


Lemma dict_get_In {V : Type} (k : string) (v : V) (d : dict V) :
  dict_get k d = Some v -> In (k, v) d.
Proof.
  induction d as [|[k' v'] d IH]; simpl; [discriminate|].
  destruct (String.eqb k k') eqn:E.
  - intros H. injection H as ->. apply String.eqb_eq in E. subst. now left.
  - intros H. right. exact (IH H).
Qed.

Section ForEach.
Context {V : Type} (f : string -> res V).



(** A loop in which one body raises returns nothing. *)
Lemma for_each_raises (cols : list string) (result : dict V) (col : string) (x : exn) :
  In col cols -> f col = Raise x ->
  exists x', for_each (assign f) cols result = Raise x'.
Proof.
  revert result. induction cols as [|c cols IH]; intros result Hin Hx; simpl.
  - destruct Hin.
  - unfold assign at 1. destruct (f c) as [e|x'] eqn:Hc; simpl.
    + destruct Hin as [->|Hin]; [congruence|]. apply IH; assumption.
    + eauto.
Qed.
End ForEach.

Lemma getitem_In (df : DataFrame) (col : string) (c : column) :
  getitem df col = Ok c -> In (col, c) (columns df).
Proof.
  unfold getitem. destruct (dict_get col (columns df)) eqn:E; [|discriminate].
  intros H. injection H as ->. apply dict_get_In. exact E.
Qed.

Lemma getitem_len (df : DataFrame) (col : string) (c : column) :
  well_formed df -> getitem df col = Ok c -> col_len c = len df.
Proof.
  intros [Hlen _] H. apply getitem_In in H.
  rewrite Forall_forall in Hlen. exact (Hlen _ H).
Qed.

(** ** Accuracy on a constant column *)







Lemma Qred_zero (x : Q) : (x == 0)%Q -> Qred x = 0%Q.
Proof. intros H. apply (Qred_complete x 0 H). Qed.











Lemma bool_mean_all_false (l : list bool) :
  l <> [] -> Forall (fun b => b = false) l -> bool_mean l = Fin 0.
Proof.
  intros Hne H. unfold bool_mean.
  assert (Hf : filter (fun b => b) l = []).
  { clear Hne. induction H as [|b l -> Hl IH]; simpl; [reflexivity|exact IH]. }
  rewrite Hf. simpl List.length.
  assert (Hn : (0 < List.length l)%nat) by (destruct l; simpl; [congruence|lia]).
  unfold of_nat. rewrite of_Z_div by lia.
  f_equal.
Qed.






(** ** calculation_accuracy *)

Lemma has_column_getitem (df : DataFrame) (col : string) :
  has_column df col = true <-> exists c, getitem df col = Ok c.
Proof.
  unfold has_column, getitem, column_names.
  induction (columns df) as [|[k c] d IH]; simpl.
  - split; [discriminate | intros [c H]; discriminate].
  - destruct (String.eqb col k); simpl.
    + split; eauto.
    + exact IH.
Qed.


Lemma bool_mean_all_true (l : list bool) :
  l <> [] -> Forall (fun b => b = true) l -> bool_mean l = Fin 1.
Proof.
  intros Hne H. unfold bool_mean.
  assert (Hf : filter (fun b => b) l = l).
  { clear Hne. induction H as [|b l -> Hl IH]; simpl; [reflexivity|]. now rewrite IH. }
  rewrite Hf.
  assert (Hn : (0 < List.length l)%nat) by (destruct l; simpl; [congruence|lia]).
  unfold of_nat. rewrite of_Z_div by lia. f_equal.
  apply (Qred_complete _ 1). field. unfold Qeq, inject_Z. simpl. lia.
Qed.



Lemma isclose_equal (x y : xnum) (atol : Q) : xeqb x y = true -> isclose x y atol = true.
Proof. intros H. unfold isclose. rewrite H. apply orb_true_r. Qed.

Lemma filter_none {A : Type} (f : A -> bool) (l : list A) :
  (forall x, In x l -> f x = false) -> filter f l = [].
Proof.
  induction l as [|x l IH]; intros H; simpl; [reflexivity|].
  rewrite (H x (or_introl eq_refl)). apply IH. intros y Hy. apply H. now right.
Qed.

Lemma In_rows_of (n : nat) (cols : list column) (r : list cell) :
  In r (rows_of n cols) <-> exists i, (i < n)%nat /\ r = row_of cols i.
Proof.
  unfold rows_of. rewrite in_map_iff. split.
  - intros (i & <- & Hi). apply in_seq in Hi. exists i. split; [lia|reflexivity].
  - intros (i & Hi & ->). exists i. split; [reflexivity|]. apply in_seq. lia.
Qed.


(** C10: with three present columns of which every row misses at least
    one value, calculation_accuracy returns accuracy 0.0 with status
    "No data": neither a configuration error nor an exception. *)
Theorem calculation_accuracy_every_row_incomplete
    (df : DataFrame) (a b c : string) (c1 c2 c3 : column) :
  getitem df a = Ok c1 -> getitem df b = Ok c2 -> getitem df c = Ok c3 ->
  (forall i, (i < len df)%nat ->
             existsb cell_isnull (row_of [c1; c2; c3] i) = true) ->
  calculation_accuracy df (Some [a; b; c]) = Accuracy (Some (Fin 0)) "No data".
Proof.
  intros Ha Hb Hc Hrows.
  unfold calculation_accuracy.
  assert (Pa : has_column df a = true) by (apply has_column_getitem; eauto).
  assert (Pb : has_column df b = true) by (apply has_column_getitem; eauto).
  assert (Pc : has_column df c = true) by (apply has_column_getitem; eauto).
  simpl filter. rewrite Pa, Pb, Pc. simpl.
  rewrite Ha, Hb, Hc. simpl.
  assert (E : clean_rows (len df) [c1; c2; c3] = []).
  { unfold clean_rows. apply filter_none. intros r Hr.
    apply In_rows_of in Hr. destruct Hr as (i & Hi & ->).
    rewrite (Hrows i Hi). reflexivity. }
  rewrite E. reflexivity.
Qed.

Lemma calculation_accuracy_every_row_incomplete_witness :
  calculation_accuracy Examples.df_abc_incomplete (Some ["a"; "b"; "c"])
  = Accuracy (Some (Fin 0)) "No data".
Proof.
  apply (calculation_accuracy_every_row_incomplete Examples.df_abc_incomplete
           "a" "b" "c" (NumCol [Fin 1; NaN]) (NumCol [NaN; Fin 20])
           (NumCol [Fin 11; Fin 22])); try reflexivity.
  intros i Hi. simpl in Hi.
  destruct i as [|[|i]]; [reflexivity | reflexivity | lia].
Defined.




(** ** business_rule_compliance *)








(** ** domain_value_validity *)

Lemma combine_map_same {A B C : Type} (f : A -> B) (g : A -> C) (l : list A) :
  combine (map f l) (map g l) = map (fun x => (f x, g x)) l.
Proof. induction l as [|x l IH]; simpl; [reflexivity|]. now rewrite IH. Qed.


(** The rule of two entries is read as a range: the value "AB", which
    is not one of "A" and "B" but lies between them, leaves the column
    valid. *)
Remark domain_rule_of_two_entries_is_a_range :
  domain_value_validity Examples.iso_parser Examples.config_status
    Examples.df_status_between
  = Ok (mkDomain [] (Fin 1) "OK").
Proof. reflexivity. Qed.


(** ** Sorting, gaps and the median *)

Section InsertionSort.
Context {A : Type} (leb : A -> A -> bool).

Lemma insert_sorted_length (x : A) (l : list A) :
  List.length (insert_sorted leb x l) = S (List.length l).
Proof.
  induction l as [|y l IH]; simpl; [reflexivity|].
  destruct (leb x y); simpl; [reflexivity|]. now rewrite IH.
Qed.

Lemma sorted_length (l : list A) : List.length (sorted leb l) = List.length l.
Proof.
  unfold sorted. induction l as [|x l IH]; simpl; [reflexivity|].
  rewrite insert_sorted_length, IH. reflexivity.
Qed.


End InsertionSort.

Lemma insert_sorted_Sorted (x : Z) (l : list Z) :
  Sorted Z.le l -> Sorted Z.le (insert_sorted Z.leb x l).
Proof.
  induction 1 as [|y l Hl IH Hhd]; simpl.
  - repeat constructor.
  - destruct (Z.leb x y) eqn:E.
    + apply Z.leb_le in E. repeat constructor; assumption.
    + apply Z.leb_gt in E. constructor; [exact IH|].
      destruct l as [|z l]; simpl.
      * constructor. lia.
      * inversion Hhd; subst. destruct (Z.leb x z); constructor; lia.
Qed.

Lemma sorted_Sorted (l : list Z) : Sorted Z.le (sorted Z.leb l).
Proof.
  unfold sorted. induction l as [|x l IH]; simpl; [constructor|].
  apply insert_sorted_Sorted. exact IH.
Qed.

Lemma diffs_nonneg (l : list Z) :
  Sorted Z.le l -> Forall (fun d => (0 <= d)%Z) (diffs l).
Proof.
  induction 1 as [|x l Hl IH Hhd]; simpl; [constructor|].
  destruct l as [|y l]; [constructor|].
  constructor; [|exact IH]. inversion Hhd; subst. lia.
Qed.

Lemma diffs_length (l : list Z) : List.length (diffs l) = (List.length l - 1)%nat.
Proof.
  induction l as [|x l IH]; simpl; [reflexivity|].
  destruct l as [|y l]; [reflexivity|].
  simpl in *. rewrite IH. lia.
Qed.

Lemma gaps_seconds_nonneg (ts : list Z) :
  Forall (fun g => (0 <= g)%Q) (gaps_seconds ts).
Proof.
  unfold gaps_seconds. rewrite Forall_map.
  eapply Forall_impl; [|apply diffs_nonneg, sorted_Sorted].
  intros d Hd. cbv beta in Hd. unfold total_seconds. rewrite Qred_correct.
  unfold Qle. cbn [Qnum Qden]. lia.
Qed.

Lemma gaps_seconds_length (ts : list Z) :
  List.length (gaps_seconds ts) = (List.length ts - 1)%nat.
Proof.
  unfold gaps_seconds. rewrite length_map, diffs_length, sorted_length. reflexivity.
Qed.



Lemma bool_mean_fin (l : list bool) :
  l <> [] -> exists r, bool_mean l = Fin r /\ (0 <= r <= 1)%Q.
Proof.
  intros Hne. unfold bool_mean, of_nat.
  assert (Hn : (0 < List.length l)%nat) by (destruct l; simpl; [congruence|lia]).
  rewrite of_Z_div by lia. eexists. split; [reflexivity|].
  rewrite Qred_correct.
  pose proof (filter_length_le (fun b : bool => b) l) as Hle.
  assert (Hd : (0 < inject_Z (Z.of_nat (List.length l)))%Q).
  { change 0%Q with (inject_Z 0). rewrite <- Zlt_Qlt. lia. }
  split.
  - apply Qle_shift_div_l; [exact Hd|]. rewrite Qmult_0_l.
    change 0%Q with (inject_Z 0). rewrite <- Zle_Qle. lia.
  - apply Qle_shift_div_r; [exact Hd|]. rewrite Qmult_1_l.
    rewrite <- Zle_Qle. lia.
Qed.

(** ** temporal_continuity *)




(** ** timeliness and freshness_score *)












(** ** Isolation of a failing column *)

(** decimal_precision records every listed column under its name,
    whatever happens on the other columns. *)
Lemma decimal_precision_loop_get
    (R : Renderer) (df : DataFrame) (cols : list string) :
  forall result col,
    dict_get col (decimal_precision_loop R df cols result)
    = if in_dec string_dec col cols
      then Some (decimal_precision_column R df col)
      else dict_get col result.
Proof.
  induction cols as [|c cols IH]; intros result col; simpl; [reflexivity|].
  rewrite IH.
  destruct (in_dec string_dec col cols) as [Hin|Hout].
  - destruct (string_dec c col); reflexivity.
  - destruct (string_dec c col) as [->|N].
    + apply dict_get_set_same.
    + apply dict_get_set_other. congruence.
Qed.

Lemma decimal_precision_isolates
    (R : Renderer) (df : DataFrame) (cols : list string) (col : string) :
  In col cols ->
  dict_get col (decimal_precision R df cols) = Some (decimal_precision_column R df col)
  /\ (has_column df col = false ->
      decimal_precision_column R df col = ErrorEntry ("'" ++ col ++ "'") "Error").
Proof.
  intros Hin. split.
  - unfold decimal_precision. rewrite decimal_precision_loop_get.
    destruct (in_dec string_dec col cols); [reflexivity|contradiction].
  - intros Habsent. unfold decimal_precision_column, decimal_precision_try, getitem.
    destruct (dict_get col (columns df)) eqn:E; [|reflexivity].
    exfalso.
    assert (T : has_column df col = true).
    { apply has_column_getitem. exists c. unfold getitem. rewrite E. reflexivity. }
    congruence.
Qed.

(** outlier_score returns nothing as soon as one listed column fails. *)
Lemma outlier_score_aborts
    (df : DataFrame) (cols : list string) (col : string) (x : exn) :
  In col cols -> outlier_score_column df col = Raise x ->
  exists x', outlier_score df cols = Raise x'.
Proof.
  intros Hin Hx. unfold outlier_score.
  exact (for_each_raises (outlier_score_column df) cols [] col x Hin Hx).
Qed.

(** C1, on the failing inputs: asked for the columns "zz" and "a" of a
    table that only has "a", outlier_score raises KeyError and returns no
    record for "a", although "a" alone is scored; on a table without rows
    it raises ZeroDivisionError.  decimal_precision, on the same request,
    records status Error with the message for "zz" and still scores
    "a". *)
Theorem outlier_score_aborts_on_failing_column :
  outlier_score Examples.df_a123 ["zz"; "a"] = Raise (KeyError "zz")
  /\ outlier_score Examples.df_a123 ["a"]
     = Ok [("a", mkEntry "outlier_%" (Fin 0) "OK")]
  /\ outlier_score Examples.df_no_rows ["a"] = Raise ZeroDivisionError
  /\ decimal_precision Examples.whole_renderer Examples.df_a123 ["zz"; "a"]
     = [("zz", ErrorEntry "'zz'" "Error"); ("a", DecimalCounts [1%nat] "OK")].
Proof. repeat split; reflexivity. Qed.

(** C2, on the failing inputs: on a table with a column and no row the
    completeness score and the uniqueness score are NaN; on a datetime
    column whose timestamps all fall in one hour of the day the pattern
    score is NaN (and the status OK). *)
Theorem nan_scores_in_results :
  score (completeness Examples.df_no_rows) = NaN
  /\ c_status (completeness Examples.df_no_rows) = "GOOD"
  /\ uniqueness_score (uniqueness Examples.df_no_rows) = NaN
  /\ temporal_pattern Examples.iso_parser Examples.df_one_stamp ["t"]
     = Ok [("t", mkEntry "pattern_score_%" NaN "OK")]
  /\ temporal_pattern Examples.iso_parser Examples.df_same_hour ["t"]
     = Ok [("t", mkEntry "pattern_score_%" NaN "OK")].
Proof. repeat split; reflexivity. Qed.

(* ------------------------------------------------------------------ *)
(** * Further properties of the operations *)

Import CoreQuality TemporalQuality.

(** ** Parse rates: consistency and timestamp_accuracy *)

Lemma count_true_filter (l : list bool) :
  count_true l = List.length (filter (fun b => b) l).
Proof. reflexivity. Qed.

Lemma ratio_percent (k n : nat) :
  (0 < n)%nat -> (k <= n)%nat ->
  exists q, xmul (xdiv (of_nat k) (of_nat n)) (Fin 100) = Fin q
            /\ (q == inject_Z (Z.of_nat k) / inject_Z (Z.of_nat n) * 100)%Q
            /\ (0 <= q <= 100)%Q.
Proof.
  intros Hn Hk. unfold of_nat. rewrite of_Z_div by lia. cbn [xmul].
  eexists. split; [reflexivity|].
  assert (E : (Qred (Qred (inject_Z (Z.of_nat k) / inject_Z (Z.of_nat n)) * 100)
               == inject_Z (Z.of_nat k) / inject_Z (Z.of_nat n) * 100)%Q)
    by (rewrite !Qred_correct; reflexivity).
  split; [exact E|]. rewrite E.
  assert (Hd : (0 < inject_Z (Z.of_nat n))%Q).
  { change 0%Q with (inject_Z 0). rewrite <- Zlt_Qlt. lia. }
  assert (H01 : (0 <= inject_Z (Z.of_nat k) / inject_Z (Z.of_nat n) <= 1)%Q).
  { split.
    - apply Qle_shift_div_l; [exact Hd|]. rewrite Qmult_0_l.
      change 0%Q with (inject_Z 0). rewrite <- Zle_Qle. lia.
    - apply Qle_shift_div_r; [exact Hd|]. rewrite Qmult_1_l.
      rewrite <- Zle_Qle. lia. }
  lra.
Qed.

(** X1: timestamp_accuracy never reports NaN: for every column of the
    table the accuracy is a finite number in [0, 100]; on a column
    without rows it is 0 with status Issue, and when every value of a
    column with rows parses it is 100 with status OK. *)
Theorem timestamp_accuracy_column_finite
    (P : Parser) (df : DataFrame) (col : string) (c : column) :
  getitem df col = Ok c ->
  (exists q st, timestamp_accuracy_column P df col = Ok (mkEntry "accuracy_%" (Fin q) st)
                /\ (0 <= q <= 100)%Q)
  /\ (col_len c = 0%nat ->
      timestamp_accuracy_column P df col = Ok (mkEntry "accuracy_%" (Fin 0) "Issue"))
  /\ ((0 < col_len c)%nat ->
      Forall (fun t => is_none t = false) (to_datetime_coerce P c) ->
      timestamp_accuracy_column P df col = Ok (mkEntry "accuracy_%" (Fin 100) "OK")).
Proof.
  intros Hget.
  assert (Hlen : List.length (to_datetime_coerce P c) = col_len c).
  { destruct c; simpl; rewrite ?length_map; reflexivity. }
  unfold timestamp_accuracy_column. rewrite Hget.
  cbv beta iota zeta delta [bind].
  set (parsed := to_datetime_coerce P c) in *.
  set (flags := map (fun t => negb (is_none t)) parsed).
  assert (Hfl : List.length flags = List.length parsed) by apply length_map.
  split; [|split].
  - destruct (0 <? List.length parsed)%nat eqn:E.
    + apply Nat.ltb_lt in E.
      destruct (ratio_percent (count_true flags) (List.length parsed) E)
        as (q & Hq & _ & Hb).
      { rewrite <- Hfl. apply count_true_le. }
      rewrite Hq. cbn [round2]. eexists _, _. split; [reflexivity|].
      apply (qround2_between q 0 100). exact Hb.
    + exists 0%Q. eexists. split; [reflexivity|]. lra.
  - intros H0. rewrite Hlen, H0. reflexivity.
  - intros Hpos Hall. rewrite Hlen.
    assert (E : (0 <? col_len c)%nat = true) by (apply Nat.ltb_lt; exact Hpos).
    rewrite E.
    assert (Hc : count_true flags = col_len c).
    { rewrite <- Hlen. unfold flags, count_true. clear -Hall.
      induction Hall as [|t l Ht Hl IH]; simpl; [reflexivity|].
      rewrite Ht. simpl. now rewrite IH. }
    rewrite Hc.
    assert (Hm : xdiv (of_nat (col_len c)) (of_nat (col_len c)) = Fin 1).
    { unfold of_nat. rewrite of_Z_div by lia. f_equal.
      apply (Qred_complete _ 1). field. unfold Qeq, inject_Z. simpl. lia. }
    rewrite Hm. reflexivity.
Qed.

(** X2: on a column with at least one row, consistency and
    timestamp_accuracy report the same percentage; consistency decides
    its status on the unrounded rate and timestamp_accuracy on the
    rounded one, so OK from consistency implies OK from
    timestamp_accuracy.  On a column without rows consistency reports NaN
    with status OK. *)
Theorem consistency_agrees_with_timestamp_accuracy
    (P : Parser) (df : DataFrame) (col : string) (c : column) :
  getitem df col = Ok c ->
  ((0 < col_len c)%nat ->
   exists q s1 s2,
     consistency_column P df col = Ok (mkEntry "validity_%" (Fin q) s1)
     /\ timestamp_accuracy_column P df col = Ok (mkEntry "accuracy_%" (Fin q) s2)
     /\ (s1 = "OK" \/ s1 = "Inconsistent")
     /\ (s2 = "OK" \/ s2 = "Issue")
     /\ (s1 = "OK" -> s2 = "OK"))
  /\ (col_len c = 0%nat ->
      consistency_column P df col = Ok (mkEntry "validity_%" NaN "OK")).
Proof.
  intros Hget.
  assert (Hlen : List.length (to_datetime_coerce P c) = col_len c).
  { destruct c; simpl; rewrite ?length_map; reflexivity. }
  unfold consistency_column, timestamp_accuracy_column. rewrite Hget.
  cbv beta iota zeta delta [bind].
  set (parsed := to_datetime_coerce P c) in *.
  set (flags := map (fun t => negb (is_none t)) parsed).
  assert (Hfl : List.length flags = List.length parsed) by apply length_map.
  split.
  - intros Hpos. rewrite <- Hlen in Hpos.
    assert (E : (0 <? List.length parsed)%nat = true) by (apply Nat.ltb_lt; exact Hpos).
    rewrite E. unfold bool_mean. rewrite Hfl. fold (count_true flags).
    destruct (ratio_percent (count_true flags) (List.length parsed) Hpos)
      as (p & Hp & _ & Hb).
    { rewrite <- Hfl. apply count_true_le. }
    rewrite Hp. cbn [round2].
    eexists _, _, _. split; [reflexivity|]. split; [reflexivity|].
    destruct (xltb (Fin p) (Fin 90)) eqn:E1;
      destruct (xltb (Fin (qround2 p)) (Fin 90)) eqn:E2;
      repeat split; auto; try discriminate.
    apply xltb_Fin_false in E1. apply xltb_Fin in E2.
    pose proof (qround2_ge p 90 E1) as H. change (inject_Z 90) with 90%Q in H. lra.
  - intros H0. rewrite <- Hlen in H0.
    assert (Hnil : flags = []).
    { destruct flags; [reflexivity|]. simpl in Hfl. lia. }
    rewrite Hnil. reflexivity.
Qed.

Lemma consistency_agrees_with_timestamp_accuracy_witness :
  exists q s1 s2,
    consistency_column Examples.iso_parser Examples.df_text_dates "d"
    = Ok (mkEntry "validity_%" (Fin q) s1)
    /\ timestamp_accuracy_column Examples.iso_parser Examples.df_text_dates "d"
       = Ok (mkEntry "accuracy_%" (Fin q) s2).
Proof.
  destruct (consistency_agrees_with_timestamp_accuracy Examples.iso_parser
              Examples.df_text_dates "d"
              (TextCol [Some "2024-01-01"; Some "2024-01-02"; Some "2024-01-09"])
              eq_refl) as [H _].
  destruct H as (q & s1 & s2 & H1 & H2 & _); [simpl; lia|].
  exists q, s1, s2. split; assumption.
Defined.

Lemma timestamp_accuracy_column_finite_witness :
  exists q st,
    timestamp_accuracy_column Examples.iso_parser Examples.df_text_dates "d"
    = Ok (mkEntry "accuracy_%" (Fin q) st)
    /\ (0 <= q <= 100)%Q.
Proof.
  apply (timestamp_accuracy_column_finite Examples.iso_parser
           Examples.df_text_dates "d"
           (TextCol [Some "2024-01-01"; Some "2024-01-02"; Some "2024-01-09"])).
  reflexivity.
Defined.

(** ** Reductions of finite values *)

Lemma dropna_num_map_Fin (l : list Q) : dropna_num (map Fin l) = map Fin l.
Proof.
  unfold dropna_num. induction l as [|x l IH]; simpl; [reflexivity|].
  now rewrite IH.
Qed.

Lemma xsum_acc_Fin (l : list Q) (a : Q) :
  exists s, fold_left xadd (map Fin l) (Fin a) = Fin s
            /\ (Forall (fun x => (0 <= x)%Q) l -> (a <= s)%Q).
Proof.
  revert a. induction l as [|x l IH]; intros a; simpl.
  - exists a. split; [reflexivity|]. intros _. apply Qle_refl.
  - destruct (IH (Qred (a + x))) as (s & Hs & Hle).
    exists s. split; [exact Hs|]. intros H. inversion H; subst.
    specialize (Hle H3). rewrite Qred_correct in Hle. lra.
Qed.

Lemma mean_map_Fin (l : list Q) :
  l <> [] ->
  exists m, mean (map Fin l) = Fin m
            /\ (Forall (fun x => (0 <= x)%Q) l -> (0 <= m)%Q).
Proof.
  intros Hne. unfold mean. rewrite dropna_num_map_Fin, length_map.
  destruct (xsum_acc_Fin l 0) as (s & Hs & Hle).
  unfold xsum. rewrite Hs.
  assert (Hn : (0 < List.length l)%nat) by (destruct l; simpl; [congruence|lia]).
  unfold of_nat, of_Z, xdiv.
  destruct (Qeq_bool (inject_Z (Z.of_nat (List.length l))) 0) eqn:E.
  { apply Qeq_bool_eq in E. unfold Qeq, inject_Z in E. simpl in E. lia. }
  eexists. split; [reflexivity|]. intros H. rewrite Qred_correct.
  apply Qle_shift_div_l.
  - change 0%Q with (inject_Z 0). rewrite <- Zlt_Qlt. lia.
  - specialize (Hle H). lra.
Qed.

Lemma qsqrt_nonneg (q : Q) : (0 <= qsqrt q)%Q.
Proof.
  unfold qsqrt. destruct (Qnum q); try apply Qle_refl.
  rewrite Qred_correct. unfold Qle. cbn [Qnum Qden].
  rewrite Z.mul_0_l, Z.mul_1_r. apply Z.sqrt_up_nonneg.
Qed.

(** The sample deviation of more than [ddof] finite values is a
    non-negative number. *)
Lemma std_map_Fin_defined (ddof : nat) (l : list Q) :
  (ddof < List.length l)%nat ->
  exists s, std ddof (map Fin l) = Fin s /\ (0 <= s)%Q.
Proof.
  intros E.
  unfold std, var. rewrite dropna_num_map_Fin, length_map.
  assert (En : (List.length l <=? ddof)%nat = false) by (apply Nat.leb_gt; exact E).
  rewrite En.
  assert (Hne : l <> []) by (destruct l; simpl in E; [lia|discriminate]).
  destruct (mean_map_Fin l Hne) as (m & Hm & _).
  set (mm := mean (map Fin l)) in *. clearbody mm. subst mm.
  rewrite map_map.
  assert (Hsq : exists sq, map (fun x => xmul (xsub (Fin x) (Fin m)) (xsub (Fin x) (Fin m))) l
                           = map Fin sq
                           /\ Forall (fun x => (0 <= x)%Q) sq).
  { clear. induction l as [|x l (sq & Hsq & Hpos)]; cbn [map].
    - exists []. split; [reflexivity|constructor].
    - eexists (_ :: sq). split; [cbn [map]; rewrite Hsq; reflexivity|].
      constructor; [|exact Hpos]. rewrite Qred_correct.
      set (d := Qred (x + Qred (- m))). nra. }
  destruct Hsq as (sq & Hsq & Hpos). rewrite Hsq.
  destruct (xsum_acc_Fin sq 0) as (s & Hs & Hle). unfold xsum. rewrite Hs.
  unfold of_nat. unfold of_Z, xdiv.
  destruct (Qeq_bool (inject_Z (Z.of_nat (List.length l - ddof))) 0) eqn:E0.
  { apply Qeq_bool_eq in E0. unfold Qeq, inject_Z in E0. simpl in E0. lia. }
  assert (Hv : (0 <= Qred (s / inject_Z (Z.of_nat (List.length l - ddof))))%Q).
  { rewrite Qred_correct. apply Qle_shift_div_l.
    - change 0%Q with (inject_Z 0). rewrite <- Zlt_Qlt. lia.
    - specialize (Hle Hpos). lra. }
  unfold xsqrt. apply Qle_bool_iff in Hv. rewrite Hv.
  eexists. split; [reflexivity|]. apply qsqrt_nonneg.
Qed.

Lemma std_map_Fin (ddof : nat) (l : list Q) :
  std ddof (map Fin l) = NaN
  \/ exists s, std ddof (map Fin l) = Fin s /\ (0 <= s)%Q.
Proof.
  destruct (Nat.le_gt_cases (List.length l) ddof) as [H | H].
  - left. unfold std, var. rewrite dropna_num_map_Fin, length_map.
    apply Nat.leb_le in H. rewrite H. reflexivity.
  - right. apply std_map_Fin_defined. exact H.
Qed.

Lemma std_too_few (ddof : nat) (xs : list xnum) :
  (List.length (dropna_num xs) <= ddof)%nat -> std ddof xs = NaN.
Proof.
  intros H. unfold std, var. apply Nat.leb_le in H. rewrite H. reflexivity.
Qed.

Lemma py_max0_range (x : xnum) :
  x = NaN \/ x = NInf \/ (exists q, x = Fin q /\ (q <= 100)%Q) ->
  exists y, py_max0 x = Fin y /\ (0 <= y <= 100)%Q.
Proof.
  intros [-> | [-> | (q & -> & Hq)]]; unfold py_max0.
  - exists 0%Q. split; [reflexivity|]. lra.
  - exists 0%Q. split; [reflexivity|]. lra.
  - destruct (xgtb (Fin q) (Fin 0)) eqn:E.
    + apply xgtb_Fin in E. exists q. split; [reflexivity|]. lra.
    + exists 0%Q. split; [reflexivity|]. lra.
Qed.

(** ** temporal_granularity *)

(** X3: temporal_granularity never reports NaN or a value outside
    [0, 100], whatever the column holds; with fewer than three parseable
    timestamps (at most one gap) it reports 0 with status Issue. *)
Theorem temporal_granularity_column_finite
    (P : Parser) (df : DataFrame) (col : string) (c : column) :
  getitem df col = Ok c ->
  (exists q st,
      temporal_granularity_column P df col = Ok (mkEntry "granularity_%" (Fin q) st)
      /\ (0 <= q <= 100)%Q)
  /\ ((List.length (dropna_time (to_datetime_coerce P c)) < 3)%nat ->
      temporal_granularity_column P df col
      = Ok (mkEntry "granularity_%" (Fin 0) "Issue")).
Proof.
  intros Hget. unfold temporal_granularity_column. rewrite Hget.
  cbv beta iota zeta delta [bind].
  set (ts := dropna_time (to_datetime_coerce P c)).
  pose proof (gaps_seconds_nonneg ts) as Hpos.
  pose proof (gaps_seconds_length ts) as Hlen.
  set (gaps := gaps_seconds ts) in *.
  split.
  - destruct gaps as [|g gaps'] eqn:Eg.
    + exists 0%Q. eexists. split; [reflexivity|]. lra.
    + rewrite <- Eg in *. clear Eg.
      destruct (map Fin gaps) as [|d ds] eqn:Em.
      { exists 0%Q. eexists. split; [reflexivity|]. lra. }
      rewrite <- Em.
      assert (Hr : exists y,
                 py_max0 (xmul (xsub (Fin 1)
                                  (if xgtb (mean (map Fin gaps)) (Fin 0)
                                   then xdiv (std 1 (map Fin gaps)) (mean (map Fin gaps))
                                   else PInf)) (Fin 100)) = Fin y
                 /\ (0 <= y <= 100)%Q).
      { apply py_max0_range.
        destruct (mean_map_Fin gaps) as (m & Hm & _).
        { intros E. rewrite E in Em. discriminate. }
        rewrite Hm.
        destruct (xgtb (Fin m) (Fin 0)) eqn:Egt; [|right; left; reflexivity].
        apply xgtb_Fin in Egt.
        destruct (std_map_Fin 1 gaps) as [Hs | (s & Hs & Hs0)]; rewrite Hs;
          [left; reflexivity|].
        right. right. unfold xdiv.
        destruct (Qeq_bool m 0) eqn:E0; [apply Qeq_bool_eq in E0; lra|].
        cbn [xsub xopp xadd xmul]. eexists. split; [reflexivity|].
        rewrite !Qred_correct.
        assert (0 <= s / m)%Q by (apply Qle_shift_div_l; lra).
        lra. }
      destruct Hr as (y & Hy & Hb). rewrite Hy. cbn [round2].
      eexists _, _. split; [reflexivity|].
      apply (qround2_between y 0 100). exact Hb.
  - intros Hfew. fold ts in Hfew.
    destruct gaps as [|g [|g' gaps']]; [reflexivity| |simpl in Hlen; lia].
    cbn [map].
    assert (Hstd : std 1 [Fin g] = NaN) by (apply std_too_few; simpl; lia).
    rewrite Hstd.
    destruct (xgtb (mean [Fin g]) (Fin 0)).
    + destruct (mean [Fin g]); reflexivity.
    + reflexivity.
Qed.

Lemma temporal_granularity_column_finite_witness :
  exists q st,
    temporal_granularity_column Examples.iso_parser Examples.df_hourly "t"
    = Ok (mkEntry "granularity_%" (Fin q) st)
    /\ (0 <= q <= 100)%Q.
Proof.
  apply (temporal_granularity_column_finite Examples.iso_parser
           Examples.df_hourly "t"
           (TimeCol [Some 0; Some 3600000000000; Some 7200000000000;
                     Some 10800000000000; Some 36000000000000]%Z)).
  reflexivity.
Defined.

(** ** One hour of the day: temporal_pattern and seasonality_detection *)

Lemma nodup_constant (h : Z) (l : list Z) :
  l <> [] -> Forall (fun x => x = h) l -> nodup Z.eq_dec l = [h].
Proof.
  intros Hne H. induction H as [|x l -> Hl IH]; [congruence|].
  simpl. destruct l as [|y l'].
  - reflexivity.
  - destruct (in_dec Z.eq_dec h (y :: l')) as [Hin | Hout].
    + apply IH. discriminate.
    + exfalso. apply Hout. inversion Hl; subst. now left.
Qed.

Lemma two_distinct_length {A : Type} (l : list A) (a b : A) :
  In a l -> In b l -> a <> b -> (2 <= List.length l)%nat.
Proof.
  intros Ha Hb N. destruct l as [|x [|y l']]; simpl in *; [tauto | | lia].
  destruct Ha as [<-|[]], Hb as [<-|[]]. congruence.
Qed.

Lemma group_count_positive (v : Z) (l : list Z) :
  In v l -> (0 < List.length (filter (Z.eqb v) l))%nat.
Proof.
  intros H.
  assert (Hin : In v (filter (Z.eqb v) l)).
  { apply filter_In. split; [exact H|apply Z.eqb_refl]. }
  destruct (filter (Z.eqb v) l); [destruct Hin|simpl; lia].
Qed.

(** The relative frequencies of a non-empty list are finite numbers. *)
Lemma value_counts_normalized_Fin (l : list Z) :
  l <> [] ->
  exists qs, value_counts_normalized l = map Fin qs
             /\ List.length qs = List.length (nodup Z.eq_dec l).
Proof.
  intros Hne. unfold value_counts_normalized.
  assert (Hn : (0 < List.length l)%nat) by (destruct l; simpl; [congruence|lia]).
  induction (nodup Z.eq_dec l) as [|v vs (qs & Hqs & Hlen)]; cbn [map].
  - exists []. split; reflexivity.
  - unfold of_nat at 1 2. rewrite of_Z_div by lia.
    eexists (_ :: qs). split; [cbn [map]; rewrite Hqs; reflexivity|].
    simpl. now rewrite Hlen.
Qed.

(** X4: temporal_pattern reports NaN, with status OK, exactly when the
    parseable timestamps of the column (at least one) all fall in the
    same hour of the day; with two different hours the pattern score is a
    finite number of at most 100. *)
Theorem temporal_pattern_column_single_hour
    (P : Parser) (df : DataFrame) (col : string) (c : column) :
  getitem df col = Ok c ->
  let parsed := dropna_time (to_datetime_coerce P c) in
  (forall h, parsed <> [] -> Forall (fun t => hour t = h) parsed ->
     temporal_pattern_column P df col = Ok (mkEntry "pattern_score_%" NaN "OK"))
  /\ (forall t1 t2, In t1 parsed -> In t2 parsed -> hour t1 <> hour t2 ->
       exists q st,
         temporal_pattern_column P df col = Ok (mkEntry "pattern_score_%" (Fin q) st)
         /\ (q <= 100)%Q).
Proof.
  intros Hget parsed. unfold temporal_pattern_column. rewrite Hget.
  cbv beta iota zeta delta [bind]. fold parsed.
  split.
  - intros h Hne Hall.
    destruct parsed as [|t ts] eqn:Ep; [congruence|]. rewrite <- Ep in *.
    assert (Hh : Forall (fun x => x = h) (map hour parsed)).
    { apply Forall_map. exact Hall. }
    assert (Hn : map hour parsed <> []) by (rewrite Ep; discriminate).
    unfold value_counts_normalized. rewrite (nodup_constant h _ Hn Hh).
    cbn [map].
    rewrite std_too_few; [reflexivity|].
    unfold dropna_num. simpl. destruct (negb _); simpl; lia.
  - intros t1 t2 H1 H2 N.
    destruct parsed as [|t ts] eqn:Ep; [destruct H1|]. rewrite <- Ep in *.
    assert (Hn : map hour parsed <> []) by (rewrite Ep; discriminate).
    destruct (value_counts_normalized_Fin _ Hn) as (qs & Hqs & Hlen).
    rewrite Hqs.
    assert (H2' : (2 <= List.length (nodup Z.eq_dec (map hour parsed)))%nat).
    { apply (two_distinct_length _ (hour t1) (hour t2)); [| |exact N];
        apply nodup_In; apply in_map; assumption. }
    destruct (std_map_Fin_defined 1 qs) as (s & Hs & Hs0); [lia|].
    rewrite Hs. cbn [xsub xopp xadd xmul round2].
    eexists _, _. split; [reflexivity|].
    apply (qround2_le _ 100). change (inject_Z 100) with 100%Q.
    rewrite !Qred_correct. lra.
Qed.

Lemma temporal_pattern_column_single_hour_witness :
  temporal_pattern_column Examples.iso_parser Examples.df_same_hour "t"
  = Ok (mkEntry "pattern_score_%" NaN "OK").
Proof.
  pose proof (temporal_pattern_column_single_hour Examples.iso_parser
                Examples.df_same_hour "t"
                (TimeCol [Some 0; Some 60000000000; Some 120000000000]%Z)
                eq_refl) as H.
  cbv zeta in H. destruct H as [H _].
  apply (H 0%Z); [simpl; discriminate | repeat constructor].
Defined.

Lemma xsum_acc_Fin_ge1 (l : list Q) (a : Q) :
  Forall (fun x => (1 <= x)%Q) l ->
  exists s, fold_left xadd (map Fin l) (Fin a) = Fin s
            /\ (a + inject_Z (Z.of_nat (List.length l)) <= s)%Q.
Proof.
  intros H. revert a. induction H as [|x l Hx Hl IH]; intros a; simpl fold_left.
  - exists a. split; [reflexivity|].
    change (inject_Z (Z.of_nat (@List.length Q []))) with 0%Q. lra.
  - destruct (IH (Qred (a + x))) as (s & Hs & Hle).
    exists s. split; [exact Hs|].
    change (List.length (x :: l)) with (S (List.length l)).
    rewrite Nat2Z.inj_succ. unfold Z.succ. rewrite inject_Z_plus.
    change (inject_Z 1) with 1%Q. rewrite Qred_correct in Hle. lra.
Qed.

Lemma mean_map_Fin_ge1 (l : list Q) :
  l <> [] -> Forall (fun x => (1 <= x)%Q) l ->
  exists m, mean (map Fin l) = Fin m /\ (1 <= m)%Q.
Proof.
  intros Hne H. unfold mean. rewrite dropna_num_map_Fin, length_map.
  destruct (xsum_acc_Fin_ge1 l 0 H) as (s & Hs & Hle).
  unfold xsum. rewrite Hs.
  assert (Hn : (0 < List.length l)%nat) by (destruct l; simpl; [congruence|lia]).
  unfold of_nat, of_Z, xdiv.
  destruct (Qeq_bool (inject_Z (Z.of_nat (List.length l))) 0) eqn:E.
  { apply Qeq_bool_eq in E. unfold Qeq, inject_Z in E. simpl in E. lia. }
  eexists. split; [reflexivity|]. rewrite Qred_correct.
  apply Qle_shift_div_l.
  - change 0%Q with (inject_Z 0). rewrite <- Zlt_Qlt. lia.
  - lra.
Qed.

Lemma group_sizes_Fin (l : list Z) :
  exists qs, group_sizes l = map Fin qs
             /\ List.length qs = List.length (nodup Z.eq_dec l)
             /\ Forall (fun x => (1 <= x)%Q) qs.
Proof.
  unfold group_sizes.
  exists (map (fun v => inject_Z (Z.of_nat (List.length (filter (Z.eqb v) l))))
              (nodup Z.eq_dec l)).
  split; [rewrite map_map; reflexivity|]. split; [apply length_map|].
  apply Forall_map. apply Forall_forall. intros v Hv.
  apply nodup_In in Hv. pose proof (group_count_positive v l Hv) as Hc.
  change 1%Q with (inject_Z 1). rewrite <- Zle_Qle. lia.
Qed.

(** X5: seasonality_detection reports 0 with status Issue for fewer than
    10 parseable timestamps; with at least 10 it reports NaN, with status
    OK, when they all fall in the same hour of the day, and a finite
    number of at most 100 when two of them fall in different hours. *)
Theorem seasonality_detection_column_cases
    (P : Parser) (df : DataFrame) (col : string) (c : column) :
  getitem df col = Ok c ->
  let parsed := dropna_time (to_datetime_coerce P c) in
  ((List.length parsed < 10)%nat ->
     seasonality_detection_column P df col = Ok (mkEntry "seasonality_%" (Fin 0) "Issue"))
  /\ ((10 <= List.length parsed)%nat ->
      forall h, Forall (fun t => hour t = h) parsed ->
      seasonality_detection_column P df col = Ok (mkEntry "seasonality_%" NaN "OK"))
  /\ ((10 <= List.length parsed)%nat ->
      forall t1 t2, In t1 parsed -> In t2 parsed -> hour t1 <> hour t2 ->
      exists q st,
        seasonality_detection_column P df col = Ok (mkEntry "seasonality_%" (Fin q) st)
        /\ (q <= 100)%Q).
Proof.
  intros Hget parsed. unfold seasonality_detection_column. rewrite Hget.
  cbv beta iota zeta delta [bind]. fold parsed.
  split; [|split].
  - intros H. apply Nat.ltb_lt in H. rewrite H. reflexivity.
  - intros H h Hall. apply Nat.ltb_ge in H. rewrite H.
    assert (Hne : map hour parsed <> []).
    { apply Nat.ltb_ge in H. destruct parsed; simpl in *; [lia|discriminate]. }
    assert (Hh : Forall (fun x => x = h) (map hour parsed)).
    { apply Forall_map. exact Hall. }
    destruct (group_sizes_Fin (map hour parsed)) as (qs & Hqs & Hlen & Hge).
    rewrite (nodup_constant h _ Hne Hh) in Hlen.
    destruct qs as [|q [|q' qs']]; simpl in Hlen; try lia.
    rewrite Hqs.
    destruct (mean_map_Fin_ge1 [q]) as (m & Hm & Hm1); [discriminate|exact Hge|].
    rewrite Hm.
    assert (Hgt : xgtb (Fin m) (Fin 0) = true) by (apply xgtb_Fin; lra).
    rewrite Hgt. rewrite std_too_few by (simpl; lia). reflexivity.
  - intros H t1 t2 H1 H2 N. apply Nat.ltb_ge in H. rewrite H.
    destruct (group_sizes_Fin (map hour parsed)) as (qs & Hqs & Hlen & Hge).
    rewrite Hqs.
    assert (H2' : (2 <= List.length (nodup Z.eq_dec (map hour parsed)))%nat).
    { apply (two_distinct_length _ (hour t1) (hour t2)); [| |exact N];
        apply nodup_In; apply in_map; assumption. }
    destruct (mean_map_Fin_ge1 qs) as (m & Hm & Hm1);
      [destruct qs; simpl in *; [lia|discriminate] | exact Hge |].
    rewrite Hm.
    assert (Hgt : xgtb (Fin m) (Fin 0) = true) by (apply xgtb_Fin; lra).
    rewrite Hgt.
    destruct (std_map_Fin_defined 1 qs) as (s & Hs & Hs0); [lia|].
    rewrite Hs. unfold xdiv.
    destruct (Qeq_bool m 0) eqn:E0; [apply Qeq_bool_eq in E0; lra|].
    cbn [xsub xopp xadd xmul round2].
    eexists _, _. split; [reflexivity|].
    apply (qround2_le _ 100). change (inject_Z 100) with 100%Q.
    rewrite !Qred_correct.
    assert (0 <= s / m)%Q by (apply Qle_shift_div_l; lra).
    lra.
Qed.

Lemma seasonality_detection_column_cases_witness :
  seasonality_detection_column Examples.iso_parser Examples.df_same_hour "t"
  = Ok (mkEntry "seasonality_%" (Fin 0) "Issue").
Proof.
  pose proof (seasonality_detection_column_cases Examples.iso_parser
                Examples.df_same_hour "t"
                (TimeCol [Some 0; Some 60000000000; Some 120000000000]%Z)
                eq_refl) as H.
  cbv zeta in H. destruct H as [H _].
  apply H. simpl. lia.
Defined.

(** ** validity *)

Lemma dict_get_set_defined {V : Type} (col k : string) (v : V) (d : dict V) :
  dict_get col (dict_set k v d) <> None <-> col = k \/ dict_get col d <> None.
Proof.
  destruct (string_dec col k) as [->|N].
  - rewrite dict_get_set_same. split; [now left | discriminate].
  - rewrite dict_get_set_other by exact N. tauto.
Qed.

Lemma for_items_keys {V E : Type} (df : DataFrame) (body : string -> V -> res E)
    (items : dict V) :
  forall result,
    (forall col v, In (col, v) items -> has_column df col = true ->
                   exists e, body col v = Ok e) ->
    exists res,
      for_items df body items result = Ok res
      /\ forall col, dict_get col res <> None <->
                     (dict_get col result <> None
                      \/ (has_column df col = true /\ exists v, In (col, v) items)).
Proof.
  induction items as [|[k v] items IH]; intros result Hbody; simpl.
  - exists result. split; [reflexivity|]. intros col. split; [tauto|].
    intros [H | (_ & v & [])]. exact H.
  - destruct (has_column df k) eqn:Hk.
    + destruct (Hbody k v (or_introl eq_refl) Hk) as [e He]. rewrite He. simpl.
      destruct (IH (dict_set k e result)) as (res & Hres & Hkeys).
      { intros col v' Hin. apply Hbody. now right. }
      exists res. split; [exact Hres|]. intros col. rewrite Hkeys.
      rewrite dict_get_set_defined. split.
      * intros [[-> | H] | (Hc & v' & Hin)].
        -- right. split; [exact Hk|]. exists v. now left.
        -- now left.
        -- right. split; [exact Hc|]. exists v'. now right.
      * intros [H | (Hc & v' & [Heq | Hin])].
        -- left. now right.
        -- injection Heq as -> ->. left. now left.
        -- right. split; [exact Hc|]. exists v'. exact Hin.
    + destruct (IH result) as (res & Hres & Hkeys).
      { intros col v' Hin. apply Hbody. now right. }
      exists res. split; [exact Hres|]. intros col. rewrite Hkeys. split.
      * intros [H | (Hc & v' & Hin)]; [now left|].
        right. split; [exact Hc|]. exists v'. now right.
      * intros [H | (Hc & v' & [Heq | Hin])]; [now left| |].
        -- injection Heq as -> ->. congruence.
        -- right. split; [exact Hc|]. exists v'. exact Hin.
Qed.

Lemma count_true_map {A : Type} (f : A -> bool) (l : list A) :
  count_true (map f l) = List.length (filter f l).
Proof.
  unfold count_true. induction l as [|x l IH]; simpl; [reflexivity|].
  destruct (f x); simpl; now rewrite IH.
Qed.

Lemma validity_column_numeric (df : DataFrame) (col : string) (lo hi : Q)
    (xs : list xnum) :
  getitem df col = Ok (NumCol xs) ->
  validity_column df col (lo, hi)
  = Ok (let k := List.length
                   (filter (fun x => xltb x (Fin lo) || xgtb x (Fin hi)) xs) in
        mkEntry "invalid_count" (of_nat k)
          (if (0 <? k)%nat then "Invalid" else "Valid")).
Proof.
  intros Hget. unfold validity_column, less_than, greater_than. rewrite Hget.
  cbv beta iota zeta delta [bind numeric].
  unfold series_or. rewrite combine_map_same, map_map. cbn [fst snd].
  rewrite count_true_map. reflexivity.
Qed.

(** X6: validity never fails on a configured column the table lacks: it
    skips it.  When the configured columns the table has are numeric it
    returns, and the result has a record exactly for those columns. *)
Theorem validity_skips_absent_columns (df : DataFrame) (value_ranges : dict (Q * Q)) :
  (forall col r, In (col, r) value_ranges -> has_column df col = true ->
                 exists xs, getitem df col = Ok (NumCol xs)) ->
  exists res,
    validity df value_ranges = Ok res
    /\ forall col, dict_get col res <> None <->
                   (has_column df col = true /\ exists r, In (col, r) value_ranges).
Proof.
  intros Hnum. unfold validity.
  destruct (for_items_keys df (validity_column df) value_ranges []) as (res & Hres & Hkeys).
  - intros col [lo hi] Hin Hhas. destruct (Hnum col _ Hin Hhas) as [xs Hxs].
    rewrite (validity_column_numeric df col lo hi xs Hxs). eauto.
  - exists res. split; [exact Hres|]. intros col. rewrite Hkeys.
    simpl. split; [intros [H | H]; [congruence | exact H] | now right].
Qed.

Lemma validity_skips_absent_columns_witness :
  exists res,
    validity Examples.df_a123 MoreExamples.ranges_a_zz = Ok res
    /\ forall col, dict_get col res <> None <->
                   (has_column Examples.df_a123 col = true
                    /\ exists r, In (col, r) MoreExamples.ranges_a_zz).
Proof.
  apply (validity_skips_absent_columns Examples.df_a123 MoreExamples.ranges_a_zz).
  intros col r Hin Hhas. simpl in Hin.
  destruct Hin as [E | [E | []]]; injection E as <- <-.
  - eexists. reflexivity.
  - discriminate Hhas.
Defined.

(** X7: on a numeric column validity counts the values below the minimum
    or above the maximum.  A missing value is never counted, so the count
    is at most the number of values present; the status is Valid exactly
    when every value present is a finite number within the inclusive
    bounds. *)
Theorem validity_column_counts_outside
    (df : DataFrame) (col : string) (lo hi : Q) (xs : list xnum) :
  getitem df col = Ok (NumCol xs) ->
  exists k,
    validity_column df col (lo, hi)
    = Ok (mkEntry "invalid_count" (of_nat k)
            (if (0 <? k)%nat then "Invalid" else "Valid"))
    /\ (k <= List.length (dropna_num xs))%nat
    /\ (k = 0%nat <->
        Forall (fun x => x = NaN \/ exists q, x = Fin q /\ (lo <= q <= hi)%Q) xs).
Proof.
  intros Hget. rewrite (validity_column_numeric df col lo hi xs Hget). cbv zeta.
  eexists. split; [reflexivity|]. split.
  - unfold dropna_num. clear.
    induction xs as [|x xs IH]; cbn [filter List.length]; [lia|].
    destruct (xltb x (Fin lo) || xgtb x (Fin hi)) eqn:E;
      destruct (negb (isnan x)) eqn:N; cbn [List.length]; try lia.
    destruct x; simpl in *; discriminate.
  - clear. induction xs as [|x xs IH]; cbn [filter List.length].
    + split; [constructor|reflexivity].
    + destruct (xltb x (Fin lo) || xgtb x (Fin hi)) eqn:E.
      * split; [discriminate|]. intros H. exfalso. inversion H as [|? ? Hx _]; subst.
        destruct Hx as [-> | (q & -> & Hq)]; [discriminate|].
        apply orb_true_iff in E. destruct E as [E | E].
        -- apply xltb_Fin in E. lra.
        -- apply xgtb_Fin in E. lra.
      * rewrite IH. apply orb_false_iff in E. destruct E as [E1 E2].
        split.
        -- intros H. constructor; [|exact H].
           destruct x as [q| | |]; try discriminate; [|now left].
           right. exists q. split; [reflexivity|].
           apply xltb_Fin_false in E1. apply xgtb_Fin_false in E2. lra.
        -- intros H. now inversion H.
Qed.

Lemma validity_column_counts_outside_witness :
  exists k,
    validity_column Examples.df_a123 "a" (0, 2)%Q
    = Ok (mkEntry "invalid_count" (of_nat k)
            (if (0 <? k)%nat then "Invalid" else "Valid"))
    /\ (k <= List.length (dropna_num [Fin 1; Fin 2; Fin 3]))%nat
    /\ (k = 0%nat <->
        Forall (fun x => x = NaN \/ exists q, x = Fin q /\ (0 <= q <= 2)%Q)
               [Fin 1; Fin 2; Fin 3]).
Proof.
  apply (validity_column_counts_outside Examples.df_a123 "a" 0 2
           [Fin 1; Fin 2; Fin 3]).
  reflexivity.
Defined.

(* ------------------------------------------------------------------ *)
(** ** range_conformity *)

Import StatisticalQuality.

Lemma count_present_numeric (xs : list xnum) :
  count_present (NumCol xs) = List.length (dropna_num xs).
Proof.
  unfold count_present, dropna_num. simpl. rewrite map_map.
  apply count_true_map.
Qed.

Lemma in_range_le_present (lo hi : Q) (xs : list xnum) :
  (List.length (filter (fun x => xleb (Fin lo) x && xleb x (Fin hi)) xs)
   <= List.length (dropna_num xs))%nat.
Proof.
  unfold dropna_num. induction xs as [|x xs IH]; cbn [filter List.length]; [lia|].
  destruct (xleb (Fin lo) x && xleb x (Fin hi)) eqn:E;
    destruct (negb (isnan x)) eqn:N; cbn [List.length]; try lia.
  destruct x; simpl in *; discriminate.
Qed.

Lemma xleb_Fin (x y : Q) : xleb (Fin x) (Fin y) = true <-> (x <= y)%Q.
Proof.
  unfold xleb. rewrite orb_true_iff, xltb_Fin. simpl. split.
  - intros [H | H]; [lra|]. apply Qeq_bool_eq in H. lra.
  - intros H. destruct (Qlt_le_dec x y) as [L | L]; [now left|].
    right. apply Qeq_bool_iff. lra.
Qed.

(** X8: range_conformity gives the value None with status "No Data" for
    a column in which every value is missing, whatever its dtype, without
    comparing anything; on a numeric column with a value present the
    conformity is a finite number in [0, 100], and it is 100 with status
    OK when every value present lies within the inclusive bounds. *)
Theorem range_conformity_column_cases
    (df : DataFrame) (col : string) (lo hi : Q) (c : column) :
  getitem df col = Ok c ->
  (count_present c = 0%nat ->
     range_conformity_column df col (lo, hi)
     = Ok (mkOptional "conformity_%" None "No Data"))
  /\ (forall xs, c = NumCol xs -> dropna_num xs <> [] ->
      (exists q st,
          range_conformity_column df col (lo, hi)
          = Ok (mkOptional "conformity_%" (Some (Fin q)) st)
          /\ (0 <= q <= 100)%Q)
      /\ (Forall (fun x => x = NaN \/ exists q, x = Fin q /\ (lo <= q <= hi)%Q) xs ->
          range_conformity_column df col (lo, hi)
          = Ok (mkOptional "conformity_%" (Some (Fin 100)) "OK"))).
Proof.
  intros Hget. unfold range_conformity_column. rewrite Hget.
  cbv beta iota zeta delta [bind].
  split.
  - intros H0. rewrite H0. reflexivity.
  - intros xs -> Hne. rewrite count_present_numeric.
    assert (Hn : (0 < List.length (dropna_num xs))%nat)
      by (destruct (dropna_num xs); simpl; [congruence|lia]).
    assert (E : (List.length (dropna_num xs) =? 0)%nat = false)
      by (apply Nat.eqb_neq; lia).
    rewrite E. unfold between. cbv beta iota zeta delta [bind numeric].
    rewrite count_true_map.
    split.
    + destruct (ratio_percent _ _ Hn (in_range_le_present lo hi xs))
        as (q & Hq & _ & Hb).
      rewrite Hq. cbn [round2]. eexists _, _. split; [reflexivity|].
      apply (qround2_between q 0 100). exact Hb.
    + intros Hall.
      assert (Hsame : List.length (filter (fun x => xleb (Fin lo) x && xleb x (Fin hi)) xs)
                      = List.length (dropna_num xs)).
      { unfold dropna_num. clear -Hall.
        induction Hall as [|x xs Hx Hxs IH]; cbn [filter]; [reflexivity|].
        destruct Hx as [-> | (q & -> & Hq)]; cbn [isnan negb].
        - exact IH.
        - assert (E : xleb (Fin lo) (Fin q) && xleb (Fin q) (Fin hi) = true).
          { apply andb_true_iff. split; apply xleb_Fin; lra. }
          rewrite E. cbn [List.length]. now rewrite IH. }
      rewrite Hsame.
      assert (Hm : xdiv (of_nat (List.length (dropna_num xs)))
                        (of_nat (List.length (dropna_num xs))) = Fin 1).
      { unfold of_nat. rewrite of_Z_div by lia. f_equal.
        apply (Qred_complete _ 1). field. unfold Qeq, inject_Z. simpl. lia. }
      rewrite Hm. reflexivity.
Qed.

Lemma range_conformity_column_cases_witness :
  exists q st,
    range_conformity_column Examples.df_a123 "a" (0, 2)%Q
    = Ok (mkOptional "conformity_%" (Some (Fin q)) st)
    /\ (0 <= q <= 100)%Q.
Proof.
  destruct (range_conformity_column_cases Examples.df_a123 "a" 0 2
              (NumCol [Fin 1; Fin 2; Fin 3]) eq_refl) as [_ H].
  destruct (H [Fin 1; Fin 2; Fin 3] eq_refl) as [H' _]; [simpl; discriminate|].
  exact H'.
Defined.

(** ** statistical_anomalies *)




Lemma filter_all {A : Type} (f : A -> bool) (l : list A) :
  (forall x, In x l -> f x = true) -> filter f l = l.
Proof.
  induction l as [|x l IH]; intros H; simpl; [reflexivity|].
  rewrite (H x (or_introl eq_refl)). f_equal. apply IH. intros y Hy. apply H. now right.
Qed.



(** ** coefficient_variation *)



(** ** variance_stability *)

Lemma split_sizes_lengths {A : Type} (sizes : list nat) :
  forall l : list A,
    (list_sum sizes <= List.length l)%nat ->
    map (@List.length A) (split_sizes l sizes) = sizes.
Proof.
  induction sizes as [|k sizes IH]; intros l H; simpl; [reflexivity|].
  simpl in H. rewrite length_firstn, Nat.min_l by lia.
  rewrite IH; [reflexivity|]. rewrite length_skipn. lia.
Qed.

Lemma list_sum_repeat (a k : nat) : list_sum (repeat a k) = (a * k)%nat.
Proof. induction k as [|k IH]; simpl; [lia|]. rewrite IH. lia. Qed.

Lemma filter_repeat_length {A : Type} (f : A -> bool) (a : A) (k : nat) :
  List.length (filter f (repeat a k)) = if f a then k else 0%nat.
Proof.
  induction k as [|k IH]; simpl; [destruct (f a); reflexivity|].
  destruct (f a); simpl; [now rewrite IH | exact IH].
Qed.

Lemma filter_map_length {A B : Type} (f : B -> bool) (g : A -> B) (l : list A) :
  List.length (filter (fun x => f (g x)) l) = List.length (filter f (map g l)).
Proof.
  induction l as [|x l IH]; simpl; [reflexivity|].
  destruct (f (g x)); simpl; now rewrite IH.
Qed.

(** The pieces of [array_split l 5] with more than one element number
    more than one exactly when [l] has at least 7 elements. *)
Lemma array_split_usable_chunks {A : Type} (l : list A) :
  (1 <? List.length (filter (fun chunk => (1 <? List.length chunk)%nat)
                            (array_split l 5)))%nat
  = (7 <=? List.length l)%nat.
Proof.
  unfold array_split.
  set (n := List.length l).
  pose proof (Nat.div_mod_eq n 5) as Hdm.
  pose proof (Nat.mod_upper_bound n 5 ltac:(lia)) as Hr.
  set (q := (n / 5)%nat) in *. set (r := (n mod 5)%nat) in *.
  rewrite (filter_map_length (fun k => (1 <? k)%nat) (@List.length A)).
  rewrite split_sizes_lengths.
  2:{ rewrite list_sum_app, !list_sum_repeat. fold n. nia. }
  rewrite filter_app, length_app, !filter_repeat_length.
  clearbody q r. clearbody n.
  destruct (Nat.leb_spec 7 n) as [E7 | E7];
    destruct (Nat.ltb_spec 1 (S q)) as [E1 | E1];
    destruct (Nat.ltb_spec 1 q) as [E2 | E2];
    try (exfalso; lia);
    try (apply Nat.ltb_lt; lia); try (apply Nat.ltb_ge; lia).
Qed.

(** X11: variance_stability leaves a numeric column out of its result
    exactly when the column has fewer than 7 present values: five
    consecutive pieces of fewer values contain at most one piece of two
    values. *)
Theorem variance_stability_column_omitted
    (df : DataFrame) (col : string) (xs : list xnum) :
  getitem df col = Ok (NumCol xs) ->
  (variance_stability_column df col = Ok None
   <-> (List.length (dropna_num xs) < 7)%nat).
Proof.
  intros Hget. unfold variance_stability_column. rewrite Hget.
  cbv beta iota zeta delta [bind numeric].
  rewrite length_map, array_split_usable_chunks.
  destruct (7 <=? List.length (dropna_num xs))%nat eqn:E.
  - apply Nat.leb_le in E. split; [discriminate|lia].
  - apply Nat.leb_gt in E. split; [intros _; exact E|reflexivity].
Qed.

Lemma variance_stability_column_omitted_witness :
  variance_stability_column Examples.df_a123 "a" = Ok None.
Proof.
  apply (variance_stability_column_omitted Examples.df_a123 "a"
           [Fin 1; Fin 2; Fin 3] eq_refl).
  simpl. lia.
Defined.

(* ------------------------------------------------------------------ *)
(** ** Scores that are ratios *)

Import SemanticQualityService SemanticQuality.

Lemma ratio_Fin (k n : nat) :
  (0 < n)%nat -> (k <= n)%nat ->
  exists q, xdiv (of_nat k) (of_nat n) = Fin q
            /\ (q == inject_Z (Z.of_nat k) / inject_Z (Z.of_nat n))%Q
            /\ (0 <= q <= 1)%Q.
Proof.
  intros Hn Hk. unfold of_nat. rewrite of_Z_div by lia.
  eexists. split; [reflexivity|]. split; [apply Qred_correct|].
  rewrite Qred_correct.
  assert (Hd : (0 < inject_Z (Z.of_nat n))%Q).
  { change 0%Q with (inject_Z 0). rewrite <- Zlt_Qlt. lia. }
  split.
  - apply Qle_shift_div_l; [exact Hd|]. rewrite Qmult_0_l.
    change 0%Q with (inject_Z 0). rewrite <- Zle_Qle. lia.
  - apply Qle_shift_div_r; [exact Hd|]. rewrite Qmult_1_l.
    rewrite <- Zle_Qle. lia.
Qed.

Lemma one_minus_ratio_Fin (k n : nat) :
  (0 < n)%nat -> (k <= n)%nat ->
  exists q, xsub (Fin 1) (xdiv (of_nat k) (of_nat n)) = Fin q
            /\ (q == 1 - inject_Z (Z.of_nat k) / inject_Z (Z.of_nat n))%Q
            /\ (0 <= q <= 1)%Q.
Proof.
  intros Hn Hk. destruct (ratio_Fin k n Hn Hk) as (p & Hp & Ep & Hb).
  rewrite Hp. cbn [xsub xopp xadd]. eexists. split; [reflexivity|].
  rewrite !Qred_correct. split; [rewrite Ep; ring | lra].
Qed.

Lemma div_lt_iff (k n c : Q) : (0 < n)%Q -> (k / n < c <-> k < c * n)%Q.
Proof.
  intros Hn. split; intros H.
  - setoid_replace k with (k / n * n)%Q by (field; lra). nra.
  - apply Qlt_shift_div_r; assumption.
Qed.

Lemma lt_div_iff (k n c : Q) : (0 < n)%Q -> (c < k / n <-> c * n < k)%Q.
Proof.
  intros Hn. split; intros H.
  - setoid_replace k with (k / n * n)%Q by (field; lra). nra.
  - apply Qlt_shift_div_l; assumption.
Qed.

Lemma inject_nat_pos (n : nat) : (0 < n)%nat -> (0 < inject_Z (Z.of_nat n))%Q.
Proof. intros H. change 0%Q with (inject_Z 0). rewrite <- Zlt_Qlt. lia. Qed.

(** ** referential_integrity *)

(** X12: referential_integrity never raises and its score is a number in
    [0, 1]; every column it lists is a configured identifier column that
    the table has; the status is Issue exactly when more than one in
    twenty of the configured identifier columns is listed, so that a
    listed column leaves the status OK when 20 or more identifiers are
    configured for each listed one. *)
Theorem referential_integrity_score (config : Config) (df : DataFrame) :
  let r := referential_integrity config df in
  let k := List.length (inconsistent_columns r) in
  let n := List.length (identifier_columns config) in
  (exists q, integrity_score r = Fin q /\ (0 <= q <= 1)%Q)
  /\ (forall col, In col (inconsistent_columns r) ->
        In col (identifier_columns config) /\ has_column df col = true)
  /\ (i_status r = "Issue" <-> (n < 20 * k)%nat)
  /\ (i_status r = "OK" <-> (20 * k <= n)%nat).
Proof.
  unfold referential_integrity. cbn [inconsistent_columns integrity_score i_status].
  set (ids := identifier_columns config).
  set (inc := filter (fun col => has_column df col
                                 && xgtb (null_ratio df col) (Fin (5 # 100))) ids).
  assert (Hk : (List.length inc <= List.length ids)%nat) by apply filter_length_le.
  assert (Hin : forall col, In col inc -> In col ids /\ has_column df col = true).
  { intros col H. apply filter_In in H. destruct H as [H1 H2].
    apply andb_true_iff in H2. tauto. }
  destruct ids as [|i ids'] eqn:Eids.
  - assert (inc = []) by reflexivity. rewrite H. simpl.
    split; [exists 1%Q; split; [reflexivity|lra]|].
    split; [intros col []|]. split; split; try discriminate; try reflexivity; lia.
  - rewrite <- Eids in *.
    assert (Hn : (0 < List.length ids)%nat) by (rewrite Eids; simpl; lia).
    destruct (one_minus_ratio_Fin _ _ Hn Hk) as (q & Hq & Eq & Hb).
    rewrite Hq. cbn [round2].
    split; [exists (qround2 q); split; [reflexivity|apply (qround2_between q 0 1); exact Hb]|].
    split; [exact Hin|].
    pose proof (inject_nat_pos _ Hn) as HN.
    assert (Hiff : (q < 95 # 100)%Q <-> (List.length ids < 20 * List.length inc)%nat).
    { rewrite Eq.
      assert (E : (1 - inject_Z (Z.of_nat (List.length inc)) / inject_Z (Z.of_nat (List.length ids))
                   < 95 # 100
                   <-> (1 # 20) < inject_Z (Z.of_nat (List.length inc))
                                  / inject_Z (Z.of_nat (List.length ids)))%Q)
        by (split; intros; lra).
      rewrite E, (lt_div_iff _ _ _ HN).
      rewrite Nat2Z.inj_lt, Nat2Z.inj_mul, Zlt_Qlt, inject_Z_mult.
      change (inject_Z (Z.of_nat 20)) with 20%Q. split; intros; lra. }
    destruct (xltb (Fin q) (Fin (95 # 100))) eqn:E.
    + apply xltb_Fin in E. apply Hiff in E.
      split; split; try discriminate; try reflexivity; intros; lia.
    + apply xltb_Fin_false in E.
      assert (~ (List.length ids < 20 * List.length inc)%nat)
        by (intros H; apply Hiff in H; lra).
      split; split; try discriminate; try reflexivity; intros; lia.
Qed.

(** ** data_lineage_quality *)

(** X13: data_lineage_quality never raises and its score is a number in
    [0, 1]; with no metadata column configured the score is 0 and the
    status Issue; when metadata columns are configured and the table has
    them all the score is 1 and the status OK. *)
Theorem data_lineage_quality_score (config : Config) (df : DataFrame) :
  let r := data_lineage_quality config df in
  (exists q, lineage_score r = Fin q /\ (0 <= q <= 1)%Q)
  /\ (metadata_columns config = [] -> r = mkLineage [] (Fin 0) "Issue")
  /\ (metadata_columns config <> [] ->
      Forall (fun col => has_column df col = true) (metadata_columns config) ->
      r = mkLineage (metadata_columns config) (Fin 1) "OK").
Proof.
  unfold data_lineage_quality.
  set (meta := metadata_columns config).
  set (tracked := filter (has_column df) meta).
  assert (Hk : (List.length tracked <= Nat.max (List.length meta) 1)%nat).
  { pose proof (filter_length_le (has_column df) meta). fold tracked in H. lia. }
  assert (Hpos : (0 < Nat.max (List.length meta) 1)%nat) by lia.
  destruct (ratio_Fin _ _ Hpos Hk) as (q & Hq & _ & Hb).
  cbv zeta. split; [|split].
  - cbn [lineage_score]. rewrite Hq. cbn [round2]. eexists. split; [reflexivity|].
    apply (qround2_between q 0 1). exact Hb.
  - intros E. unfold tracked. rewrite E. reflexivity.
  - intros Hne Hall.
    assert (Ht : tracked = meta).
    { unfold tracked. apply filter_all. apply Forall_forall. exact Hall. }
    rewrite Ht.
    assert (Hm : Nat.max (List.length meta) 1 = List.length meta).
    { destruct meta; simpl; [congruence|lia]. }
    rewrite Hm.
    assert (Hone : xdiv (of_nat (List.length meta)) (of_nat (List.length meta)) = Fin 1).
    { unfold of_nat. rewrite of_Z_div by (destruct meta; simpl; [congruence|lia]).
      f_equal. apply (Qred_complete _ 1). field. unfold Qeq, inject_Z. simpl.
      destruct meta; simpl; [congruence|lia]. }
    rewrite Hone. reflexivity.
Qed.

Lemma data_lineage_quality_score_witness :
  data_lineage_quality (mkConfig [] [] [] ["a"] [] []) Examples.df_a123
  = mkLineage ["a"] (Fin 1) "OK".
Proof.
  apply (data_lineage_quality_score (mkConfig [] [] [] ["a"] [] []) Examples.df_a123).
  - discriminate.
  - repeat constructor.
Defined.

(** ** cross_field_validation *)

Lemma cross_field_loop_numeric (df : DataFrame) (rules : list (list string)) :
  (forall a b, In [a; b] rules ->
               has_column df a = true -> has_column df b = true ->
               exists xs ys, getitem df a = Ok (NumCol xs)
                             /\ getitem df b = Ok (NumCol ys)) ->
  forall issues,
  exists out,
    cross_field_loop df rules issues = Ok out
    /\ (List.length out <= List.length issues + List.length rules)%nat.
Proof.
  induction rules as [|rule rules IH]; intros Hnum issues; simpl.
  - exists issues. split; [reflexivity|lia].
  - assert (Hrest : forall a b, In [a; b] rules ->
               has_column df a = true -> has_column df b = true ->
               exists xs ys, getitem df a = Ok (NumCol xs)
                             /\ getitem df b = Ok (NumCol ys)).
    { intros a b Hin. apply Hnum. now right. }
    assert (Hskip : exists out,
               cross_field_loop df rules issues = Ok out
               /\ (List.length out <= List.length issues + S (List.length rules))%nat).
    { destruct (IH Hrest issues) as (out & Ho & Hl). exists out. split; [exact Ho|lia]. }
    destruct rule as [|a [|b [|c rule']]]; try exact Hskip.
    destruct (has_column df a && has_column df b) eqn:Hab; [|exact Hskip].
    apply andb_true_iff in Hab. destruct Hab as [Ha Hb].
    destruct (Hnum a b (or_introl eq_refl) Ha Hb) as (xs & ys & Hxs & Hys).
    rewrite Hxs, Hys. cbv beta iota zeta delta [bind series_gt].
    match goal with
    | |- context [cross_field_loop df rules ?acc] =>
        destruct (IH Hrest acc) as (out & Ho & Hl);
        assert (Hacc : (List.length acc <= S (List.length issues))%nat)
    end.
    { destruct (0 <? _)%nat; [rewrite length_app; simpl; lia | lia]. }
    exists out. split; [exact Ho|lia].
Qed.

(** X14: cross_field_validation skips a rule that does not name two
    columns of the table instead of failing; when the rules that do name
    two columns of the table name numeric columns it returns, with at
    most one violation per configured rule and a score that is a number
    in [0, 1]. *)
Theorem cross_field_validation_score (config : Config) (df : DataFrame) :
  (forall a b, In [a; b] (cross_field_rules config) ->
               has_column df a = true -> has_column df b = true ->
               exists xs ys, getitem df a = Ok (NumCol xs)
                             /\ getitem df b = Ok (NumCol ys)) ->
  exists r q,
    cross_field_validation config df = Ok r
    /\ (List.length (violations r) <= List.length (cross_field_rules config))%nat
    /\ cross_field_score r = Fin q
    /\ (0 <= q <= 1)%Q.
Proof.
  intros Hnum. unfold cross_field_validation.
  destruct (cross_field_loop_numeric df _ Hnum []) as (out & Ho & Hl).
  simpl in Hl. rewrite Ho. cbv beta iota zeta delta [bind].
  set (n := Nat.max (List.length (cross_field_rules config)) 1).
  assert (Hn : (0 < n)%nat) by (unfold n; lia).
  assert (Hk : (List.length out <= n)%nat) by (unfold n; lia).
  destruct (one_minus_ratio_Fin _ _ Hn Hk) as (q & Hq & _ & Hb).
  rewrite Hq. cbn [round2].
  eexists _, _. split; [reflexivity|]. cbn [violations cross_field_score].
  split; [exact Hl|]. split; [reflexivity|].
  apply (qround2_between q 0 1). exact Hb.
Qed.

Lemma cross_field_validation_score_witness :
  exists r q,
    cross_field_validation (mkConfig [] [] [["a"; "b"]; ["a"; "zz"]; ["a"]] [] [] [])
      Examples.df_abc = Ok r
    /\ cross_field_score r = Fin q /\ (0 <= q <= 1)%Q.
Proof.
  destruct (cross_field_validation_score
              (mkConfig [] [] [["a"; "b"]; ["a"; "zz"]; ["a"]] [] [] [])
              Examples.df_abc) as (r & q & Hr & _ & Hq & Hb).
  - intros a b Hin Ha Hb. simpl in Hin.
    destruct Hin as [E | [E | [E | []]]]; try discriminate;
      injection E as <- <-; try discriminate.
    eexists _, _. split; reflexivity.
  - exists r, q. split; [exact Hr|]. split; assumption.
Defined.

(** ** semantic_consistency *)

Lemma negative_products_bound (xs ys : list xnum) (n : nat) :
  List.length xs = n ->
  exists k, negative_products (NumCol xs) (NumCol ys) = Ok k /\ (k <= n)%nat.
Proof.
  intros Hx. unfold negative_products. cbv beta iota zeta delta [bind numeric].
  eexists. split; [reflexivity|].
  pose proof (count_true_le
                (map (fun p => xltb (xmul (fst p) (snd p)) (Fin 0)) (combine xs ys))) as H.
  rewrite length_map, length_combine in H. lia.
Qed.

Lemma sum_pairs_bound (df : DataFrame) (pairs : list (string * string)) :
  well_formed df ->
  (forall v c, In (v, c) pairs ->
               exists xs ys, getitem df v = Ok (NumCol xs)
                             /\ getitem df c = Ok (NumCol ys)) ->
  forall acc,
  exists total,
    sum_pairs df pairs acc = Ok total
    /\ (total <= acc + len df * List.length pairs)%nat.
Proof.
  intros Hwf. induction pairs as [|[v c] pairs IH]; intros Hnum acc; simpl.
  - exists acc. split; [reflexivity|lia].
  - destruct (Hnum v c (or_introl eq_refl)) as (xs & ys & Hxs & Hys).
    rewrite Hxs, Hys. cbv beta iota delta [bind].
    pose proof (getitem_len df v _ Hwf Hxs) as Hlen. simpl in Hlen.
    destruct (negative_products_bound xs ys (len df) Hlen) as (k & Hk & Hle).
    rewrite Hk.
    destruct (IH (fun v' c' H => Hnum v' c' (or_intror H)) (acc + k)%nat)
      as (total & Ht & Hb).
    exists total. split; [exact Ht|]. nia.
Qed.

(** X15: on a well-formed table whose columns named after "volt" and
    "current" (in any letter case) are numeric, semantic_consistency
    returns; the number of inconsistent rows is at most the number of
    rows times the number of voltage-current pairs, and the score is a
    number in [0, 1].  Without a voltage column or without a current
    column nothing is inconsistent. *)
Theorem semantic_consistency_score (df : DataFrame) :
  well_formed df ->
  (forall col, In col (column_names df) ->
               contains "volt" (lower col) = true
               \/ contains "current" (lower col) = true ->
               exists xs, getitem df col = Ok (NumCol xs)) ->
  let voltage_cols := filter (fun col => contains "volt" (lower col)) (column_names df) in
  let current_cols := filter (fun col => contains "current" (lower col)) (column_names df) in
  exists r q,
    semantic_consistency df = Ok r
    /\ (0 <= semantic_inconsistencies r
        <= Z.of_nat (len df * (List.length voltage_cols * List.length current_cols)))%Z
    /\ semantic_score r = Fin q
    /\ (0 <= q <= 1)%Q
    /\ (voltage_cols = [] \/ current_cols = [] ->
        r = mkSemantic 0 (Fin 1) "OK").
Proof.
  intros Hwf Hnum vs cs. unfold semantic_consistency. fold vs cs.
  destruct (sum_pairs_bound df (list_prod vs cs) Hwf) with (acc := 0%nat)
    as (k & Hk & Hb).
  { intros v c Hin. apply in_prod_iff in Hin. destruct Hin as [Hv Hc].
    apply filter_In in Hv. apply filter_In in Hc.
    destruct (Hnum v) as [xs Hxs]; [tauto | left; tauto |].
    destruct (Hnum c) as [ys Hys]; [tauto | right; tauto |].
    eauto. }
  rewrite length_prod in Hb. simpl in Hb.
  rewrite Hk. cbv beta iota zeta delta [bind].
  set (p := (List.length vs * List.length cs)%nat) in *.
  assert (Hscore : exists q,
             (if (0 <? len df)%nat
              then xsub (Fin 1) (xdiv (of_nat k) (of_nat (len df * Nat.max p 1)))
              else Fin 1) = Fin q /\ (0 <= q <= 1)%Q).
  { destruct (0 <? len df)%nat eqn:E.
    - apply Nat.ltb_lt in E.
      destruct (one_minus_ratio_Fin k (len df * Nat.max p 1)) as (q & Hq & _ & Hq01);
        [nia | nia |].
      exists q. split; assumption.
    - exists 1%Q. split; [reflexivity|lra]. }
  destruct Hscore as (q & Hq & Hq01). rewrite Hq. cbn [round2].
  eexists _, _. split; [reflexivity|].
  cbn [semantic_inconsistencies semantic_score].
  split; [lia|]. split; [reflexivity|].
  split; [apply (qround2_between q 0 1); exact Hq01|].
  intros Hnone.
  assert (Hp : p = 0%nat) by (unfold p; destruct Hnone as [-> | ->]; simpl; lia).
  assert (Hk0 : k = 0%nat) by nia. subst k.
  assert (Hq1 : q = 1%Q).
  { destruct (0 <? len df)%nat eqn:E.
    - apply Nat.ltb_lt in E. rewrite Hp in Hq. simpl Nat.max in Hq.
      unfold of_nat in Hq. rewrite of_Z_div in Hq by lia.
      cbn [xsub xopp xadd] in Hq. injection Hq as <-. reflexivity.
    - injection Hq as <-. reflexivity. }
  subst q. reflexivity.
Qed.

Lemma semantic_consistency_score_witness :
  exists r q,
    semantic_consistency MoreExamples.df_voltage_current = Ok r
    /\ (0 <= semantic_inconsistencies r <= 2)%Z
    /\ semantic_score r = Fin q
    /\ (0 <= q <= 1)%Q.
Proof.
  destruct (semantic_consistency_score MoreExamples.df_voltage_current)
    as (r & q & Hr & Hk & Hs & Hq & _).
  - solve_well_formed.
  - intros col Hin _. simpl in Hin.
    destruct Hin as [<- | [<- | []]]; eexists; reflexivity.
  - exists r, q. split; [exact Hr|]. split; [exact Hk|]. split; assumption.
Defined.

(* ------------------------------------------------------------------ *)
(** ** clean_nan and _convert_to_python_types *)

Import Results.

Lemma map_ext_Forall {A B : Type} (f g : A -> B) (l : list A) :
  Forall (fun x => f x = g x) l -> map f l = map g l.
Proof. induction 1 as [|x l Hx Hl IH]; simpl; [reflexivity|]. now rewrite Hx, IH. Qed.

Lemma forallb_map_Forall {A B : Type} (p : B -> bool) (f : A -> B) (l : list A) :
  Forall (fun x => p (f x) = true) l -> forallb p (map f l) = true.
Proof. induction 1 as [|x l Hx Hl IH]; simpl; [reflexivity|]. now rewrite Hx, IH. Qed.

(** X16: clean_nan leaves no NaN and no infinity in a float of the
    result (inside dicts and lists, at any depth), and cleaning a cleaned
    value changes nothing. *)
Theorem clean_nan_finite_and_idempotent (obj : pyobj) :
  floats_finite (clean_nan obj) = true
  /\ clean_nan (clean_nan obj) = clean_nan obj.
Proof.
  induction obj as [items IH | items IH | obj Hleaf] using pyobj_induction.
  - split; simpl.
    + apply forallb_map_Forall. eapply Forall_impl; [|exact IH].
      intros [k v] [H _]. exact H.
    + f_equal. rewrite map_map. apply map_ext_Forall.
      eapply Forall_impl; [|exact IH]. intros [k v] [_ H]. simpl in *.
      now rewrite H.
  - split; simpl.
    + apply forallb_map_Forall. eapply Forall_impl; [|exact IH].
      intros v [H _]. exact H.
    + f_equal. rewrite map_map. apply map_ext_Forall.
      eapply Forall_impl; [|exact IH]. intros v [_ H]. exact H.
  - destruct obj as [| |x| | | | |x| | |]; try destruct Hleaf;
      try (split; reflexivity); destruct x; split; reflexivity.
Qed.

(** X17: _convert_to_python_types returns Python's own types only, with
    no NaN among them (an infinite Python float stays, an infinite numpy
    float becomes None); followed by clean_nan the result is fit for a
    JSON encoder: no numpy value and every float finite. *)
Theorem convert_then_clean_is_json_safe (obj : pyobj) :
  python_native (Results.convert_to_python_types obj) = true
  /\ json_safe (clean_nan (Results.convert_to_python_types obj)) = true.
Proof.
  induction obj as [items IH | items IH | obj Hleaf] using pyobj_induction.
  - split; simpl.
    + apply forallb_map_Forall. eapply Forall_impl; [|exact IH].
      intros [k v] [H _]. exact H.
    + rewrite map_map. apply forallb_map_Forall. eapply Forall_impl; [|exact IH].
      intros [k v] [_ H]. exact H.
  - split; simpl.
    + apply forallb_map_Forall. eapply Forall_impl; [|exact IH].
      intros v [H _]. exact H.
    + rewrite map_map. apply forallb_map_Forall. eapply Forall_impl; [|exact IH].
      intros v [_ H]. exact H.
  - destruct obj as [| |x| | | | |x| | |xs]; try destruct Hleaf;
      try (split; reflexivity); try (destruct x; split; reflexivity).
    split; simpl.
    + apply forallb_map_Forall. apply Forall_forall. intros x _.
      destruct x; reflexivity.
    + rewrite map_map. apply forallb_map_Forall. apply Forall_forall. intros x _.
      destruct x; reflexivity.
Qed.

(** X18: _convert_to_python_types is idempotent and neither it nor
    clean_nan changes a value that is already fit for a JSON encoder. *)
Theorem conversions_fix_json_safe_values (obj : pyobj) :
  Results.convert_to_python_types (Results.convert_to_python_types obj)
  = Results.convert_to_python_types obj
  /\ (json_safe obj = true ->
      Results.convert_to_python_types obj = obj /\ clean_nan obj = obj).
Proof.
  induction obj as [items IH | items IH | obj Hleaf] using pyobj_induction.
  - split.
    + simpl. f_equal. rewrite map_map. apply map_ext_Forall.
      eapply Forall_impl; [|exact IH]. intros [k v] [H _]. simpl in *. now rewrite H.
    + simpl. intros Hs. rewrite forallb_forall in Hs.
      assert (H : Forall (fun kv : string * pyobj =>
                            Results.convert_to_python_types (snd kv) = snd kv
                            /\ clean_nan (snd kv) = snd kv) items).
      { rewrite Forall_forall in IH |- *. intros kv Hin.
        apply (IH kv Hin). apply Hs. exact Hin. }
      split; f_equal; rewrite <- (map_id items) at 2; apply map_ext_Forall;
        (eapply Forall_impl; [|exact H]); intros [k v] [H1 H2]; simpl in *;
        congruence.
  - split.
    + simpl. f_equal. rewrite map_map. apply map_ext_Forall.
      eapply Forall_impl; [|exact IH]. intros v [H _]. exact H.
    + simpl. intros Hs. rewrite forallb_forall in Hs.
      assert (H : Forall (fun v => Results.convert_to_python_types v = v
                                   /\ clean_nan v = v) items).
      { rewrite Forall_forall in IH |- *. intros v Hin.
        apply (IH v Hin). apply Hs. exact Hin. }
      split; f_equal; rewrite <- (map_id items) at 2; apply map_ext_Forall;
        (eapply Forall_impl; [|exact H]); intros v [H1 H2]; assumption.
  - destruct obj as [| |x| | | | |x| | |xs]; try destruct Hleaf;
      try (split; [reflexivity | intros; split; reflexivity]);
      try (split; [reflexivity | discriminate]);
      try (split; [destruct x; reflexivity
                  | simpl; intros Hx; destruct x; try discriminate; split; reflexivity]).
    split; [|discriminate].
    assert (E : map Results.convert_to_python_types (map convert_float xs)
                = map convert_float xs).
    { induction xs as [|x xs IHx]; simpl; [reflexivity|].
      rewrite IHx. destruct x; reflexivity. }
    cbn [Results.convert_to_python_types]. rewrite E. reflexivity.
Qed.

(* ------------------------------------------------------------------ *)
(** ** rounding_consistency *)

Import PrecisionQuality.

Lemma round_half_even_whole (q : Q) :
  (q == inject_Z (Qfloor q))%Q -> round_half_even q = Qfloor q.
Proof.
  intros H. unfold round_half_even.
  destruct (Qcompare (q - inject_Z (Qfloor q)) (1 # 2)) eqn:C.
  - apply Qeq_alt in C. lra.
  - reflexivity.
  - apply Qgt_alt in C. lra.
Qed.

Lemma isclose_whole (q : Q) :
  (q == inject_Z (Qfloor q))%Q -> isclose (Fin q) (xround (Fin q)) ATOL = true.
Proof.
  intros H. apply isclose_equal. simpl.
  rewrite (round_half_even_whole q H). apply Qeq_bool_iff. exact H.
Qed.

(** A value of magnitude 50000 or more is within the relative tolerance
    of its rounding, whatever its decimals. *)
Lemma isclose_large (q : Q) :
  (50000 <= Qabs q)%Q -> isclose (Fin q) (xround (Fin q)) ATOL = true.
Proof.
  intros H. unfold isclose. apply orb_true_iff. left.
  apply andb_true_iff. split; [|reflexivity].
  cbn [xround xsub xopp xadd xabs xmul].
  unfold xleb. apply orb_true_iff.
  set (r := inject_Z (round_half_even q)).
  assert (Hnear : (Qabs (q - r) <= 1 # 2)%Q).
  { apply Qabs_Qle_condition. pose proof (round_half_even_near q). fold r in H0. lra. }
  assert (Hr : (50000 <= Qabs r)%Q).
  { destruct (Qlt_le_dec q 0) as [Neg | Pos].
    - assert (Hq : (q <= - 50000)%Q).
      { rewrite Qabs_neg in H by lra. lra. }
      assert (Hz : (round_half_even q <= - 50000)%Z).
      { apply round_half_even_le. exact Hq. }
      rewrite Zle_Qle in Hz. fold r in Hz.
      change (inject_Z (- 50000)) with (- 50000)%Q in Hz.
      rewrite Qabs_neg by lra. lra.
    - assert (Hq : (50000 <= q)%Q).
      { rewrite Qabs_pos in H by lra. lra. }
      assert (Hz : (50000 <= round_half_even q)%Z).
      { apply round_half_even_ge. exact Hq. }
      rewrite Zle_Qle in Hz. fold r in Hz.
      change (inject_Z 50000) with 50000%Q in Hz.
      rewrite Qabs_pos by lra. lra. }
  destruct (Qlt_le_dec (Qabs (q - r)) (ATOL + RTOL * Qabs r)) as [L | L].
  - left. apply xltb_Fin. rewrite !Qred_correct.
    setoid_replace (q + - r)%Q with (q - r)%Q by ring. exact L.
  - exfalso. unfold ATOL, RTOL in L. lra.
Qed.

Lemma rounds_well_Fin (q : Q) :
  (50000 <= Qabs q)%Q \/ (q == inject_Z (Qfloor q))%Q ->
  rounds_well (Fin q) = true.
Proof.
  intros [H | H]; unfold rounds_well; apply orb_true_iff; left.
  - apply isclose_large. exact H.
  - apply isclose_whole. exact H.
Qed.

(** X19: rounding_consistency counts every whole number as matching, and
    also every value of magnitude 50000 or more, whatever its decimals
    (the comparison allows a relative difference of 1e-5); a numeric
    column with a present value and only such values gets 100.0 and
    status OK. *)
Theorem rounding_consistency_large_values
    (df : DataFrame) (col : string) (xs : list xnum) :
  getitem df col = Ok (NumCol xs) ->
  dropna_num xs <> [] ->
  Forall (fun x => x = NaN
                   \/ exists q, x = Fin q
                                /\ ((50000 <= Qabs q)%Q
                                    \/ (q == inject_Z (Qfloor q))%Q)) xs ->
  rounding_consistency_column df col = MatchPercent (Some (Fin 100)) "OK".
Proof.
  intros Hget Hne Hall.
  unfold rounding_consistency_column, rounding_consistency_try. rewrite Hget.
  cbv beta iota zeta delta [bind].
  assert (Hcells : filter (fun x => negb (cell_isnull x)) (cells (NumCol xs))
                   = map NumCell (dropna_num xs)).
  { unfold dropna_num. simpl. clear. induction xs as [|x xs IH]; simpl; [reflexivity|].
    destruct (negb (isnan x)); simpl; now rewrite IH. }
  rewrite Hcells.
  destruct (map NumCell (dropna_num xs)) as [|c0 cs] eqn:Em.
  { destruct (dropna_num xs); [congruence|discriminate]. }
  cbv beta iota delta [numeric].
  assert (Hm : bool_mean (map rounds_well (dropna_num xs)) = Fin 1).
  { apply bool_mean_all_true.
    - destruct (dropna_num xs); [congruence|discriminate].
    - apply Forall_map. apply Forall_forall. intros x Hx.
      unfold dropna_num in Hx. apply filter_In in Hx. destruct Hx as [Hx Hnn].
      rewrite Forall_forall in Hall.
      destruct (Hall x Hx) as [-> | (q & -> & Hq)]; [discriminate|].
      apply rounds_well_Fin. exact Hq. }
  rewrite Hm. reflexivity.
Qed.

Lemma rounding_consistency_large_values_witness :
  rounding_consistency_column MoreExamples.df_large_reading "kwh"
  = MatchPercent (Some (Fin 100)) "OK".
Proof.
  apply (rounding_consistency_large_values MoreExamples.df_large_reading "kwh"
           [Fin (100001 # 2); Fin 3; NaN] eq_refl).
  - simpl. discriminate.
  - apply Forall_cons; [|apply Forall_cons; [|apply Forall_cons; [|apply Forall_nil]]].
    + right. exists (100001 # 2)%Q. split; [reflexivity|]. left.
      vm_compute. discriminate.
    + right. exists 3%Q. split; [reflexivity|]. right. reflexivity.
    + left. reflexivity.
Defined.

(* ------------------------------------------------------------------ *)
(** ** structural_quality_service.py *)

Import StructuralQualityService.

(** X20: schema_conformity never raises and its score is a number in
    [0, 1]; it lists exactly the expected columns the table lacks, and
    the status is OK exactly when the table has every expected column, in
    which case the score is 1. *)
Theorem schema_conformity_score (config : Config) (df : DataFrame) :
  let r := schema_conformity config df in
  (exists q, ratio_score r = Fin q /\ (0 <= q <= 1)%Q)
  /\ (forall col, In col (listed_columns r) <->
                  In col (expected_schema config) /\ has_column df col = false)
  /\ (r_status r = "OK" <->
      Forall (fun col => has_column df col = true) (expected_schema config))
  /\ (r_status r = "OK" -> r = mkRatio [] (Fin 1) "OK").
Proof.
  unfold schema_conformity.
  set (expected := expected_schema config).
  set (missing := filter (fun col => negb (has_column df col)) expected).
  cbv zeta. cbn [ratio_score listed_columns r_status].
  assert (Hk : (List.length missing <= List.length expected)%nat) by apply filter_length_le.
  assert (Hin : forall col, In col missing <-> In col expected /\ has_column df col = false).
  { intros col. unfold missing. rewrite filter_In, negb_true_iff. reflexivity. }
  assert (Hok : missing = [] <-> Forall (fun col => has_column df col = true) expected).
  { split.
    - intros E. apply Forall_forall. intros col Hc.
      destruct (has_column df col) eqn:Eh; [reflexivity|].
      assert (In col missing) by (apply Hin; tauto). rewrite E in H. destruct H.
    - intros H. unfold missing. apply filter_none. intros col Hc.
      rewrite Forall_forall in H. rewrite (H col Hc). reflexivity. }
  split; [|split; [exact Hin|split]].
  - destruct expected as [|e es] eqn:Ee.
    + exists 1%Q. split; [reflexivity|lra].
    + rewrite <- Ee in *.
      assert (Hn : (0 < List.length expected)%nat) by (rewrite Ee; simpl; lia).
      destruct (one_minus_ratio_Fin _ _ Hn Hk) as (q & Hq & _ & Hb).
      rewrite Hq. exists (qround2 q). split; [reflexivity|].
      apply (qround2_between q 0 1). exact Hb.
  - rewrite <- Hok. destruct missing; split; try discriminate; reflexivity.
  - intros Hst. assert (Hm : missing = []) by (destruct missing; [reflexivity|discriminate]).
    rewrite Hm. destruct expected as [|e es] eqn:Ee; [reflexivity|].
    rewrite <- Ee.
    assert (Hn : (0 < List.length expected)%nat) by (rewrite Ee; simpl; lia).
    unfold of_nat. rewrite of_Z_div by lia. reflexivity.
Qed.

Lemma py_div_nat (k n : nat) :
  (0 < n)%nat ->
  py_div (Z.of_nat k) (Z.of_nat n) = Ok (xdiv (of_nat k) (of_nat n)).
Proof.
  intros Hn. unfold py_div.
  destruct (Z.of_nat n =? 0)%Z eqn:E; [apply Z.eqb_eq in E; lia|reflexivity].
Qed.

(** X21: naming_convention raises ZeroDivisionError on a table without
    columns; on any other table it returns a score that is a number in
    [0, 1], and the status is Issue exactly when more than three in ten
    of the column names are invalid. *)
Theorem naming_convention_needs_columns (df : DataFrame) :
  (columns df = [] -> naming_convention df = Raise ZeroDivisionError)
  /\ (columns df <> [] ->
      exists r q,
        naming_convention df = Ok r
        /\ ratio_score r = Fin q /\ (0 <= q <= 1)%Q
        /\ (r_status r = "Issue" <->
            (3 * List.length (columns df) < 10 * List.length (listed_columns r))%nat)).
Proof.
  unfold naming_convention, column_names.
  set (invalid := filter _ (map fst (columns df))).
  split.
  - intros E. subst invalid. rewrite E. reflexivity.
  - intros Hne. rewrite length_map.
    assert (Hn : (0 < List.length (columns df))%nat)
      by (destruct (columns df); simpl; [congruence|lia]).
    assert (Hk : (List.length invalid <= List.length (columns df))%nat).
    { unfold invalid. etransitivity; [apply filter_length_le|]. rewrite length_map. lia. }
    rewrite (py_div_nat _ _ Hn). cbv beta iota delta [bind].
    destruct (one_minus_ratio_Fin _ _ Hn Hk) as (q & Hq & Eq & Hb).
    rewrite Hq. cbn [round2].
    eexists _, _. split; [reflexivity|]. cbn [ratio_score r_status listed_columns].
    split; [reflexivity|]. split; [apply (qround2_between q 0 1); exact Hb|].
    pose proof (inject_nat_pos _ Hn) as HN.
    assert (Hiff : (q < 7 # 10)%Q <->
                   (3 * List.length (columns df) < 10 * List.length invalid)%nat).
    { rewrite Eq.
      assert (E : (1 - inject_Z (Z.of_nat (List.length invalid))
                        / inject_Z (Z.of_nat (List.length (columns df))) < 7 # 10
                   <-> (3 # 10) < inject_Z (Z.of_nat (List.length invalid))
                                  / inject_Z (Z.of_nat (List.length (columns df))))%Q)
        by (split; intros; lra).
      rewrite E, (lt_div_iff _ _ _ HN).
      rewrite Nat2Z.inj_lt, !Nat2Z.inj_mul, Zlt_Qlt, !inject_Z_mult.
      change (inject_Z (Z.of_nat 3)) with 3%Q.
      change (inject_Z (Z.of_nat 10)) with 10%Q. split; intros; lra. }
    destruct (xltb (Fin q) (Fin (7 # 10))) eqn:E.
    + apply xltb_Fin in E. split; [intros _; apply Hiff; exact E|reflexivity].
    + apply xltb_Fin_false in E. split; [discriminate|].
      intros H. apply Hiff in H. lra.
Qed.


Lemma set_difference_In (a b : list string) (x : string) :
  In x (set_difference a b) <-> In x a /\ ~ In x b.
Proof.
  unfold set_difference. rewrite nodup_In, filter_In, negb_true_iff.
  split; intros [Ha Hb]; split; try exact Ha.
  - intros Hin. assert (existsb (String.eqb x) b = true).
    { apply existsb_exists. exists x. split; [exact Hin|apply String.eqb_refl]. }
    congruence.
  - destruct (existsb (String.eqb x) b) eqn:E; [|reflexivity].
    exfalso. apply Hb. apply existsb_exists in E. destruct E as (y & Hy & Ey).
    apply String.eqb_eq in Ey. subst. exact Hy.
Qed.

(** X23: schema_drift reports as new exactly the columns of the table
    that are not expected and as missing exactly the expected columns the
    table lacks; its status is OK exactly when the table and the expected
    schema have the same column names, in whatever order. *)
Theorem schema_drift_compares_name_sets (config : Config) (df : DataFrame) :
  let r := schema_drift config df in
  (forall col, In col (new_columns r) <->
               In col (column_names df) /\ ~ In col (expected_schema config))
  /\ (forall col, In col (missing_columns r) <->
                  In col (expected_schema config) /\ ~ In col (column_names df))
  /\ (dr_status r = "OK" <->
      forall col, In col (column_names df) <-> In col (expected_schema config)).
Proof.
  unfold schema_drift. cbv zeta. cbn [new_columns missing_columns dr_status].
  set (cur := column_names df). set (expd := expected_schema config).
  split; [apply set_difference_In|]. split; [apply set_difference_In|].
  split.
  - intros Hst col.
    destruct (set_difference cur expd) as [|n ns] eqn:En;
      [|discriminate].
    destruct (set_difference expd cur) as [|m ms] eqn:Em; [|discriminate].
    split; intros H.
    + destruct (in_dec string_dec col expd) as [Hi | Ho]; [exact Hi|].
      assert (In col (set_difference cur expd)) by (apply set_difference_In; tauto).
      rewrite En in H0. destruct H0.
    + destruct (in_dec string_dec col cur) as [Hi | Ho]; [exact Hi|].
      assert (In col (set_difference expd cur)) by (apply set_difference_In; tauto).
      rewrite Em in H0. destruct H0.
  - intros Hsame.
    destruct (set_difference cur expd) as [|n ns] eqn:En.
    + destruct (set_difference expd cur) as [|m ms] eqn:Em; [reflexivity|].
      exfalso. assert (Hin : In m (set_difference expd cur)) by (rewrite Em; now left).
      apply set_difference_In in Hin. destruct Hin as [H1 H2]. apply H2, Hsame, H1.
    + exfalso. assert (Hin : In n (set_difference cur expd)) by (rewrite En; now left).
      apply set_difference_In in Hin. destruct Hin as [H1 H2]. apply H2, Hsame, H1.
Qed.

(** *** Loops over the configured columns the table has *)

Lemma In_dict_set {V : Type} (k k' : string) (v v' : V) (d : dict V) :
  In (k, v) (dict_set k' v' d) -> (k = k' /\ v = v') \/ In (k, v) d.
Proof.
  induction d as [|[k2 v2] d IH]; simpl.
  - intros [H | []]. injection H as <- <-. now left.
  - destruct (String.eqb k' k2) eqn:E; simpl.
    + intros [H | H]; [injection H as <- <-; now left | right; now right].
    + intros [H | H]; [right; now left|].
      destruct (IH H) as [H' | H']; [now left | right; now right].
Qed.

Lemma for_present_get {V : Type} (df : DataFrame) (body : column -> V)
    (cols : list string) (result : dict V) (col : string) :
  dict_get col (for_present df body cols result)
  = match getitem df col with
    | Ok c => if existsb (String.eqb col) cols then Some (body c)
              else dict_get col result
    | Raise _ => dict_get col result
    end.
Proof.
  revert result. induction cols as [|k rest IH]; intros result; simpl.
  - destruct (getitem df col); reflexivity.
  - destruct (has_column df k) eqn:Hk.
    + destruct (proj1 (has_column_getitem df k) Hk) as [ck Hck]. rewrite Hck, IH.
      destruct (getitem df col) as [c|x] eqn:Hc.
      * destruct (String.eqb col k) eqn:E; simpl.
        -- apply String.eqb_eq in E. subst k.
           assert (ck = c) by congruence. subst ck.
           rewrite dict_get_set_same. destruct (existsb _ rest); reflexivity.
        -- apply String.eqb_neq in E. rewrite dict_get_set_other by exact E.
           reflexivity.
      * apply dict_get_set_other. intros ->. congruence.
    + rewrite IH. destruct (getitem df col) as [c|x] eqn:Hc; [|reflexivity].
      destruct (String.eqb col k) eqn:E; simpl; [|reflexivity].
      apply String.eqb_eq in E. subst k.
      assert (has_column df col = true) by (apply has_column_getitem; eauto).
      congruence.
Qed.

Lemma for_present_In {V : Type} (df : DataFrame) (body : column -> V)
    (cols : list string) (result : dict V) (col : string) (v : V) :
  In (col, v) (for_present df body cols result) ->
  In (col, v) result
  \/ (In col cols /\ exists c, getitem df col = Ok c /\ v = body c).
Proof.
  revert result. induction cols as [|k rest IH]; intros result; simpl.
  - now left.
  - destruct (has_column df k) eqn:Hk.
    + destruct (proj1 (has_column_getitem df k) Hk) as [ck Hck]. rewrite Hck.
      intros H. destruct (IH _ H) as [H' | (Hin & c & Hc & Hv)].
      * destruct (In_dict_set _ _ _ _ _ H') as [[-> ->] | H2]; [|now left].
        right. split; [now left|]. eauto.
      * right. split; [now right|]. eauto.
    + intros H. destruct (IH _ H) as [H' | (Hin & c & Hc & Hv)]; [now left|].
      right. split; [now right|]. eauto.
Qed.

Lemma existsb_eqb_In (col : string) (cols : list string) :
  existsb (String.eqb col) cols = true <-> In col cols.
Proof.
  rewrite existsb_exists. split.
  - intros (x & Hx & E). apply String.eqb_eq in E. now subst.
  - intros H. exists col. split; [exact H | apply String.eqb_refl].
Qed.

(** The values of the dict are the results on the listed columns the
    table has. *)
Lemma for_present_values {V : Type} (df : DataFrame) (body : column -> V)
    (cols : list string) (v : V) :
  In v (map snd (for_present df body cols [])) <->
  exists col c, In col cols /\ getitem df col = Ok c /\ v = body c.
Proof.
  split.
  - rewrite in_map_iff. intros ([k v'] & E & H). simpl in E. subst v'.
    destruct (for_present_In _ _ _ _ _ _ H) as [[] | (Hin & c & Hc & Hv)].
    eauto.
  - intros (col & c & Hin & Hc & ->).
    apply in_map_iff. exists (col, body c). split; [reflexivity|].
    apply dict_get_In. rewrite for_present_get, Hc.
    apply existsb_eqb_In in Hin. rewrite Hin. reflexivity.
Qed.

Lemma nodup_singleton (l : list nat) :
  List.length (nodup Nat.eq_dec l) = 1%nat <->
  exists x, In x l /\ forall y, In y l -> y = x.
Proof.
  split.
  - intros H. destruct (nodup Nat.eq_dec l) as [|x [|y r]] eqn:E; try discriminate.
    exists x. split.
    + apply (nodup_In Nat.eq_dec). rewrite E. now left.
    + intros y Hy. apply (nodup_In Nat.eq_dec) in Hy. rewrite E in Hy.
      destruct Hy as [<- | []]. reflexivity.
  - intros (x & Hx & Hall).
    pose proof (NoDup_nodup Nat.eq_dec l) as ND.
    destruct (nodup Nat.eq_dec l) as [|a [|b r]] eqn:E.
    + apply (nodup_In Nat.eq_dec) in Hx. rewrite E in Hx. destruct Hx.
    + reflexivity.
    + exfalso.
      assert (Ha : a = x).
      { apply Hall. apply (nodup_In Nat.eq_dec). rewrite E. now left. }
      assert (Hb : b = x).
      { apply Hall. apply (nodup_In Nat.eq_dec). rewrite E. right. now left. }
      subst a b. inversion ND as [|? ? Hn _]. apply Hn. now left.
Qed.

(** X24: with identifier columns configured, structural_integrity
    reports the number of distinct values of each identifier column the
    table has, and nothing for the others; its status is OK exactly when
    the table has at least one of those columns and all those it has show
    the same number of distinct values, so it is Inconsistent when the
    table has none of them. *)
Theorem structural_integrity_status (config : Config) (df : DataFrame) :
  identifier_columns config <> [] ->
  exists cards st,
    structural_integrity config df = Cardinalities cards st
    /\ (forall col,
          dict_get col cards
          = match getitem df col with
            | Ok c => if existsb (String.eqb col) (identifier_columns config)
                      then Some (nunique c) else None
            | Raise _ => None
            end)
    /\ (st = "OK" \/ st = "Inconsistent")
    /\ (st = "OK" <->
        (exists col, In col (identifier_columns config) /\ has_column df col = true)
        /\ (forall col1 col2 c1 c2,
              In col1 (identifier_columns config) ->
              In col2 (identifier_columns config) ->
              getitem df col1 = Ok c1 -> getitem df col2 = Ok c2 ->
              nunique c1 = nunique c2)).
Proof.
  intros Hne. unfold structural_integrity.
  destruct (identifier_columns config) as [|i0 ids'] eqn:Eids; [congruence|].
  rewrite <- Eids in *. clear Eids Hne i0 ids'.
  set (ids := identifier_columns config).
  set (cards := for_present df nunique ids []).
  cbv zeta. eexists _, _. split; [reflexivity|].
  split; [|split].
  - intros col. unfold cards. rewrite for_present_get.
    destruct (getitem df col); [|reflexivity].
    destruct (existsb _ ids); reflexivity.
  - destruct (_ =? 1)%nat; [now left | now right].
  - assert (Hiff : (List.length (nodup Nat.eq_dec (map snd cards)) =? 1)%nat = true
                   <-> (exists col, In col ids /\ has_column df col = true)
                       /\ (forall col1 col2 c1 c2,
                             In col1 ids -> In col2 ids ->
                             getitem df col1 = Ok c1 -> getitem df col2 = Ok c2 ->
                             nunique c1 = nunique c2)).
    { rewrite Nat.eqb_eq, nodup_singleton. unfold cards. split.
      - intros (x & Hx & Hall).
        apply for_present_values in Hx. destruct Hx as (col & c & Hin & Hc & Hv).
        split.
        + exists col. split; [exact Hin|]. apply has_column_getitem. eauto.
        + intros col1 col2 c1 c2 H1 H2 G1 G2.
          rewrite (Hall (nunique c1)), (Hall (nunique c2)); [reflexivity| |];
            apply for_present_values; eauto 6.
      - intros [(col & Hin & Hhas) Hsame].
        apply has_column_getitem in Hhas. destruct Hhas as [c Hc].
        exists (nunique c). split.
        + apply for_present_values. eauto 6.
        + intros y Hy. apply for_present_values in Hy.
          destruct Hy as (col' & c' & Hin' & Hc' & ->).
          exact (Hsame _ _ _ _ Hin' Hin Hc' Hc). }
    destruct (_ =? 1)%nat.
    + split; [intros _; apply Hiff; reflexivity | reflexivity].
    + split; [discriminate|]. intros H. apply Hiff in H. discriminate.
Qed.

Lemma structural_integrity_status_witness :
  exists cards st,
    structural_integrity MoreExamples.config_ids_ab Examples.df_abc
    = Cardinalities cards st
    /\ (st = "OK" \/ st = "Inconsistent").
Proof.
  destruct (structural_integrity_status MoreExamples.config_ids_ab Examples.df_abc)
    as (cards & st & H & _ & Hst & _).
  - discriminate.
  - exists cards, st. split; assumption.
Defined.

Lemma distinct_length_le {A : Type} (eqb : A -> A -> bool) (l : list A) :
  (List.length (distinct eqb l) <= List.length l)%nat.
Proof.
  induction l as [|x l IH]; simpl; [lia|].
  destruct (existsb (eqb x) l); simpl; lia.
Qed.

Lemma option_values_length_le {A : Type} (l : list (option A)) :
  (List.length (option_values l) <= List.length l)%nat.
Proof.
  induction l as [|[x|] l IH]; simpl; lia.
Qed.

Lemma nunique_le (c : column) : (nunique c <= col_len c)%nat.
Proof.
  destruct c as [xs|xs|xs]; simpl;
    (etransitivity; [apply distinct_length_le|]).
  - apply filter_length_le.
  - apply option_values_length_le.
  - apply option_values_length_le.
Qed.

(** X25: on a well-formed table, every unique ratio that
    cardinality_quality reports is a number in [0, 1] and belongs to an
    identifier column the table has; the columns listed as low are those
    with a reported ratio below 0.5, and the status is OK exactly when
    none is listed.  On a table without rows every identifier column the
    table has gets ratio 0, so the status is an issue as soon as the
    table has one. *)
Theorem cardinality_quality_ratios (config : Config) (df : DataFrame) :
  well_formed df ->
  let r := cardinality_quality config df in
  (forall col v, dict_get col (unique_ratios r) = Some v ->
     In col (identifier_columns config)
     /\ has_column df col = true
     /\ exists q, v = Fin q /\ (0 <= q <= 1)%Q)
  /\ (forall col, In col (low_cardinality_columns r) <->
        exists q, In (col, Fin q) (unique_ratios r) /\ (q < 1 # 2)%Q)
  /\ (c_status r = "OK" <-> low_cardinality_columns r = [])
  /\ (len df = 0%nat ->
      (forall col, In col (identifier_columns config) ->
                   has_column df col = true ->
                   dict_get col (unique_ratios r) = Some (Fin 0))
      /\ ((exists col, In col (identifier_columns config) /\ has_column df col = true) ->
          c_status r = "Low cardinality issue")).
Proof.
  intros WF. unfold cardinality_quality.
  set (ids := identifier_columns config).
  set (ratios := for_present df (unique_ratio df) ids []).
  cbv zeta. cbn [unique_ratios low_cardinality_columns c_status].
  assert (Hval : forall col v, In (col, v) ratios ->
            In col ids /\ has_column df col = true
            /\ exists q, v = Fin q /\ (0 <= q <= 1)%Q).
  { intros col v H. unfold ratios in H.
    destruct (for_present_In _ _ _ _ _ _ H) as [[] | (Hin & c & Hc & ->)].
    split; [exact Hin|]. split; [apply has_column_getitem; eauto|].
    unfold unique_ratio.
    destruct (Nat.ltb_spec 0 (len df)) as [Hn | Hn].
    - assert (Hle : (nunique c <= len df)%nat).
      { rewrite <- (getitem_len df col c WF Hc). apply nunique_le. }
      destruct (ratio_Fin _ _ Hn Hle) as (q & Hq & _ & Hb).
      rewrite Hq. exists (qround2 q). split; [reflexivity|].
      apply (qround2_between q 0 1). exact Hb.
    - exists 0%Q. split; [reflexivity|lra]. }
  assert (Hlow : forall col,
            In col (map fst (filter (fun kv => xltb (snd kv) (Fin (1 # 2))) ratios))
            <-> exists q, In (col, Fin q) ratios /\ (q < 1 # 2)%Q).
  { intros col. rewrite in_map_iff. split.
    - intros ([k v] & E & H). simpl in E. subst k.
      apply filter_In in H. destruct H as [Hin Hlt]. simpl in Hlt.
      destruct (Hval _ _ Hin) as (_ & _ & q & -> & _).
      exists q. split; [exact Hin|]. apply xltb_Fin. exact Hlt.
    - intros (q & Hin & Hlt). exists (col, Fin q). split; [reflexivity|].
      apply filter_In. split; [exact Hin|]. simpl. apply xltb_Fin. exact Hlt. }
  split; [|split; [exact Hlow|split]].
  - intros col v H. apply Hval. apply dict_get_In. exact H.
  - destruct (map fst _); split; try reflexivity; discriminate.
  - intros H0.
    assert (Hget : forall col, In col ids -> has_column df col = true ->
                     dict_get col ratios = Some (Fin 0)).
    { intros col Hin Hhas. unfold ratios. rewrite for_present_get.
      apply has_column_getitem in Hhas. destruct Hhas as [c Hc]. rewrite Hc.
      apply existsb_eqb_In in Hin. rewrite Hin.
      unfold unique_ratio. rewrite H0. reflexivity. }
    split; [exact Hget|].
    intros (col & Hin & Hhas).
    assert (Hl : In col (map fst (filter (fun kv => xltb (snd kv) (Fin (1 # 2))) ratios))).
    { apply Hlow. exists 0%Q. split; [|reflexivity].
      apply dict_get_In. apply Hget; assumption. }
    destruct (map fst _); [destruct Hl|reflexivity].
Qed.

Lemma cardinality_quality_ratios_witness :
  c_status (cardinality_quality MoreExamples.config_ids_ab Examples.df_abc) = "OK"
  <-> low_cardinality_columns
        (cardinality_quality MoreExamples.config_ids_ab Examples.df_abc) = [].
Proof.
  pose proof (cardinality_quality_ratios MoreExamples.config_ids_ab Examples.df_abc)
    as H.
  cbv zeta in H. destruct H as (_ & _ & H & _).
  - solve_well_formed.
  - exact H.
Defined.


(* ------------------------------------------------------------------ *)
(** ** information_quality_service.py *)






Import InformationQualityService.




(* ------------------------------------------------------------------ *)
(** ** precision_quality_service.py: decimal_precision *)

Import PrecisionQualityService.





(* ------------------------------------------------------------------ *)
(** ** information_quality_service.py: redundancy and compression *)

Lemma series_duplicated_length (c : column) :
  List.length (series_duplicated c) = col_len c.
Proof.
  unfold series_duplicated.
  assert (H : forall seen rs, List.length (duplicated_from seen rs) = List.length rs).
  { intros seen rs. revert seen. induction rs as [|r rs IH]; intros seen; simpl;
      [reflexivity|]. now rewrite IH. }
  rewrite H, length_map. destruct c; simpl; apply length_map.
Qed.

Lemma cell_eqb_refl (x : cell) : cell_eqb x x = true.
Proof.
  destruct x as [x|[s|]|[t|]]; simpl; try reflexivity.
  - destruct x; simpl; try reflexivity. apply Qeq_bool_iff. reflexivity.
  - apply String.eqb_refl.
  - apply Z.eqb_refl.
Qed.

Lemma duplicated_from_repeat (x : cell) (seen : list (list cell)) (n : nat) :
  In [x] seen ->
  duplicated_from seen (repeat [x] n) = repeat true n.
Proof.
  revert seen. induction n as [|n IH]; intros seen Hin; simpl; [reflexivity|].
  rewrite IH by (now left). f_equal.
  apply existsb_exists. exists [x]. split; [exact Hin|].
  simpl. rewrite cell_eqb_refl. reflexivity.
Qed.

(** X28: redundancy_score reports 100 minus the percentage of values
    that repeat an earlier value of the column, so that a column without
    repeated values gets 100 with status OK, while a column of n >= 2
    equal values gets 100/n (to two decimals), which is at most 50, with
    status Issue.  On a column with rows the value is a number in
    [0, 100]; on a column without rows it is NaN with status OK. *)
Theorem redundancy_column_cases (c : column) :
  (col_len c = 0%nat -> redundancy_column c = mkEntry "redundancy_%" NaN "OK")
  /\ ((0 < col_len c)%nat ->
      exists q, redundancy_column c
                = mkEntry "redundancy_%" (Fin q)
                    (if Qlt_le_dec q 90 then "Issue" else "OK")
                /\ (0 <= q <= 100)%Q)
  /\ ((0 < col_len c)%nat ->
      Forall (fun b => b = false) (series_duplicated c) ->
      redundancy_column c = mkEntry "redundancy_%" (Fin 100) "OK")
  /\ (forall x n, (2 <= n)%nat -> cells c = repeat x n ->
      exists q, redundancy_column c = mkEntry "redundancy_%" (Fin q) "Issue"
                /\ q = qround2 (100 / inject_Z (Z.of_nat n))
                /\ (q <= 50)%Q).
Proof.
  pose proof (series_duplicated_length c) as Hlen.
  assert (Hst : forall q, (if xltb (Fin q) (Fin 90) then "Issue" else "OK")
                          = if Qlt_le_dec q 90 then "Issue" else "OK").
  { intros q. destruct (Qlt_le_dec q 90) as [H | H].
    - apply xltb_Fin in H. rewrite H. reflexivity.
    - apply xltb_Fin_false in H. rewrite H. reflexivity. }
  split; [|split; [|split]].
  - intros H0. unfold redundancy_column. rewrite H0 in Hlen.
    destruct (series_duplicated c); [reflexivity|discriminate].
  - intros Hn. unfold redundancy_column.
    destruct (bool_mean_fin (series_duplicated c)) as (r & Hr & Hb).
    { intros E. rewrite E in Hlen. simpl in Hlen. lia. }
    rewrite Hr. cbn [xmul xsub xopp xadd round2].
    eexists. split; [rewrite Hst; reflexivity|].
    assert (Hy : (0 <= Qred (100 + Qred (- Qred (r * 100))) <= 100)%Q)
      by (rewrite !Qred_correct; lra).
    apply (qround2_between _ 0 100). exact Hy.
  - intros Hn Hall. unfold redundancy_column.
    rewrite bool_mean_all_false; [reflexivity| |exact Hall].
    intros E. rewrite E in Hlen. simpl in Hlen. lia.
  - intros x n Hn Hc. unfold redundancy_column, series_duplicated. rewrite Hc.
    destruct n as [|m]; [lia|]. simpl repeat. simpl map.
    rewrite map_repeat. cbn [duplicated_from existsb].
    rewrite duplicated_from_repeat by (now left).
    unfold bool_mean. cbn [filter List.length].
    assert (Hf : filter (fun b : bool => b) (repeat true m) = repeat true m).
    { clear. induction m; simpl; [reflexivity|]. now rewrite IHm. }
    rewrite Hf, repeat_length.
    assert (Hm : (0 < S m)%nat) by lia.
    destruct (ratio_Fin m (S m) Hm ltac:(lia)) as (r & Hr & Er & Hb).
    rewrite Hr. cbn [xmul xsub xopp xadd round2].
    assert (HS : (0 < inject_Z (Z.of_nat (S m)))%Q) by (apply inject_nat_pos; lia).
    assert (E : (Qred (100 + Qred (- Qred (r * 100))) == 100 / inject_Z (Z.of_nat (S m)))%Q).
    { rewrite !Qred_correct, Er.
      replace (Z.of_nat (S m)) with (Z.of_nat m + 1)%Z by lia.
      rewrite inject_Z_plus. change (inject_Z 1) with 1%Q.
      field. replace (Z.of_nat (S m)) with (Z.of_nat m + 1)%Z in HS by lia.
      rewrite inject_Z_plus in HS. change (inject_Z 1) with 1%Q in HS. lra. }
    rewrite (qround2_comp _ _ E).
    assert (H50 : (qround2 (100 / inject_Z (Z.of_nat (S m))) <= 50)%Q).
    { apply (qround2_le _ 50). change (inject_Z 50) with 50%Q.
      apply Qle_shift_div_r; [exact HS|].
      assert (2 <= inject_Z (Z.of_nat (S m)))%Q.
      { change 2%Q with (inject_Z 2). rewrite <- Zle_Qle. lia. }
      lra. }
    eexists. split; [|split; [reflexivity|exact H50]].
    f_equal. rewrite Hst. destruct (Qlt_le_dec _ 90); [reflexivity|lra].
Qed.

Lemma distinct_NoDup (l : list string) :
  NoDup l -> StructuralQualityService.distinct String.eqb l = l.
Proof.
  induction 1 as [|x l Hx Hl IH]; simpl; [reflexivity|].
  destruct (existsb (String.eqb x) l) eqn:E.
  - exfalso. apply Hx. apply existsb_exists in E. destruct E as (y & Hy & Ey).
    apply String.eqb_eq in Ey. now subst.
  - now rewrite IH.
Qed.

(** X29: compression_ratio reports 100 with status OK for a column in
    which no value is present, although there is nothing to compress; for
    a column with a value present it reports a number in [0, 100], which
    is 0 with status Issue when the values present are all different as
    strings, in particular when there is one value only. *)
Theorem compression_ratio_column_cases
    (R : PrecisionQualityService.Renderer) (c : column) :
  (present_strings R c = [] ->
     compression_ratio_column R c = mkEntry "compression_ratio_%" (Fin 100) "OK")
  /\ (present_strings R c <> [] ->
      exists q, compression_ratio_column R c
                = mkEntry "compression_ratio_%" (Fin q)
                    (if Qlt_le_dec q 85 then "Issue" else "OK")
                /\ (0 <= q <= 100)%Q)
  /\ (present_strings R c <> [] -> NoDup (present_strings R c) ->
      compression_ratio_column R c = mkEntry "compression_ratio_%" (Fin 0) "Issue").
Proof.
  unfold compression_ratio_column.
  set (series := present_strings R c).
  split; [|split].
  - intros E. rewrite E. reflexivity.
  - intros Hne.
    assert (Hn : (0 < List.length series)%nat)
      by (destruct series; simpl; [congruence|lia]).
    assert (E : (0 <? List.length series)%nat = true) by (apply Nat.ltb_lt; exact Hn).
    rewrite E.
    destruct (one_minus_ratio_Fin _ _ Hn
                (distinct_length_le String.eqb series))
      as (q & Hq & _ & Hb).
    rewrite Hq. cbn [xmul round2]. eexists. split.
    + f_equal. destruct (Qlt_le_dec _ 85) as [H | H].
      * apply xltb_Fin in H. rewrite H. reflexivity.
      * apply xltb_Fin_false in H. rewrite H. reflexivity.
    + assert (Hy : (0 <= Qred (q * 100) <= 100)%Q)
        by (rewrite Qred_correct; lra).
      apply (qround2_between _ 0 100). exact Hy.
  - intros Hne Hnd.
    assert (Hn : (0 < List.length series)%nat)
      by (destruct series; simpl; [congruence|lia]).
    assert (E : (0 <? List.length series)%nat = true) by (apply Nat.ltb_lt; exact Hn).
    rewrite E, (distinct_NoDup _ Hnd).
    unfold of_nat. rewrite of_Z_div by lia.
    assert (E1 : Qred (inject_Z (Z.of_nat (List.length series))
                       / inject_Z (Z.of_nat (List.length series))) = 1%Q).
    { apply (Qred_complete _ 1). field.
      pose proof (inject_nat_pos _ Hn). lra. }
    rewrite E1. reflexivity.
Qed.

(* ------------------------------------------------------------------ *)
(** ** precision_quality_service.py: measurement_precision *)





